(** * werkzeug.routing.map: the URL map and its bound adapter

    A shallow embedding of [src/werkzeug/routing/map.py] ([Map] and
    [MapAdapter]) and the properties of matching and building that follow
    from it.

    Conventions.
    - Python [str] is [string]; [lower]/[upper] act on the ASCII letters.
    - A [dict] with string keys is a [gmap string _]; a [set] of strings a
      [gset string].
    - A raised exception is the [Raise] branch of [result].
    - [Rule], the matcher, the converters and the urllib/IDNA primitives
      live outside [map.py]; they enter as the interfaces [RuleLike],
      [MatcherLike] and [Externals].  Where a property turns on what a rule
      makes of a path and its values, the rule is [PatternRule], with its
      pattern and converters modelled from the specification.
    - [Map.update] mutates the map that every adapter shares, so
      [MapAdapter_match] and [MapAdapter_build] take the map and hand back
      the updated one. *)

From stdpp Require Import gmap strings list fin_maps sorting pretty.
From Stdlib Require Import Ascii ZArith Lia.

(** ** Strings *)

Module Str.

(** [s.lstrip(c)] for a single stripped character. *)
Fixpoint lstrip (c : ascii) (s : string) : string :=
  match s with
  | String a s' => if Ascii.eqb a c then lstrip c s' else s
  | EmptyString => EmptyString
  end.

(** [s.rstrip(c)] for a single stripped character. *)
Fixpoint rstrip (c : ascii) (s : string) : string :=
  match s with
  | String a s' =>
      let r := rstrip c s' in
      if Ascii.eqb a c && String.eqb r "" then "" else String a r
  | EmptyString => EmptyString
  end.

(** [s.strip(c)]. *)
Definition strip (c : ascii) (s : string) : string := lstrip c (rstrip c s).

(** [s[:-1]]. *)
Fixpoint drop_last (s : string) : string :=
  match s with
  | String a EmptyString => EmptyString
  | String a s' => String a (drop_last s')
  | EmptyString => EmptyString
  end.

(** [s.endswith(c)] for a single character. *)
Fixpoint endswith (c : ascii) (s : string) : bool :=
  match s with
  | String a EmptyString => Ascii.eqb a c
  | String _ s' => endswith c s'
  | EmptyString => false
  end.

Definition lower_ascii (a : ascii) : ascii :=
  let n := N_of_ascii a in
  if (65 <=? n)%N && (n <=? 90)%N then ascii_of_N (n + 32) else a.

Definition upper_ascii (a : ascii) : ascii :=
  let n := N_of_ascii a in
  if (97 <=? n)%N && (n <=? 122)%N then ascii_of_N (n - 32) else a.

Fixpoint map (f : ascii -> ascii) (s : string) : string :=
  match s with
  | String a s' => String (f a) (map f s')
  | EmptyString => EmptyString
  end.

Definition lower : string -> string := map lower_ascii.
Definition upper : string -> string := map upper_ascii.

(** [s.partition(c)]: the part before the first [c], the separator (empty
    when [c] does not occur) and the part after it. *)
Fixpoint partition (c : ascii) (s : string) : string * string * string :=
  match s with
  | String a s' =>
      if Ascii.eqb a c then ("", String c "", s')
      else let '(h, sep, t) := partition c s' in (String a h, sep, t)
  | EmptyString => ("", "", "")
  end.

(** Python truthiness of a string. *)
Definition truthy (s : string) : bool := negb (String.eqb s "").

(** [c in s]. *)
Fixpoint contains (c : ascii) (s : string) : bool :=
  match s with
  | String a s' => Ascii.eqb a c || contains c s'
  | EmptyString => false
  end.

(** The first character of [s] that is [x] or [y]. *)
Fixpoint first_of (x y : ascii) (s : string) : option ascii :=
  match s with
  | String a s' =>
      if Ascii.eqb a x || Ascii.eqb a y then Some a else first_of x y s'
  | EmptyString => None
  end.

(** [s.removeprefix(p)] when [s] starts with [p]. *)
Fixpoint strip_prefix (p s : string) : option string :=
  match p, s with
  | EmptyString, _ => Some s
  | String a p', String b s' =>
      if Ascii.eqb a b then strip_prefix p' s' else None
  | String _ _, EmptyString => None
  end.

(** [c * n]. *)
Fixpoint replicate (n : nat) (c : ascii) : string :=
  match n with
  | O => EmptyString
  | S n => String c (replicate n c)
  end.

End Str.

(** ** Values, exceptions and results *)

(** The values that travel through routing: what converters produce and
    what callers pass to [build]. *)
#[warnings="-register-all"]
Inductive value : Type :=
| VNone
| VStr (s : string)
| VInt (z : Z)
| VList (l : list value).

Definition is_none (v : value) : bool :=
  match v with VNone => true | _ => false end.

(** [query_args]: a mapping or an already encoded string. *)
Inductive qargs : Type :=
| QString (s : string)
| QMapping (m : gmap string value).

Definition qargs_truthy (q : qargs) : bool :=
  match q with
  | QString s => Str.truthy s
  | QMapping m => negb (bool_decide (m = ∅))
  end.

(** The [values] argument of [build]: [None], a plain dict, or a
    [MultiDict], whose underlying dict maps each key to its list of values. *)
Inductive build_values : Type :=
| NoValues
| PlainDict (d : gmap string value)
| MultiDict (d : gmap string (list value)).

Inductive exn : Type :=
| RequestRedirect (new_url : string)
| MethodNotAllowed (valid_methods : list string)
| WebsocketMismatch
| NotFound
| BuildError (endpoint : string) (values : gmap string value)
    (method : option string)
| BadHost
| RuntimeError (msg : string)
| AssertionError (msg : string)
| KeyError (key : string)
| TypeError.

Inductive result (A : Type) : Type :=
| Ok (a : A)
| Raise (e : exn).
Arguments Ok {A} a.
Arguments Raise {A} e.

(** What [matcher.match] does: it returns a rule with the extracted values
    or raises one of [RequestPath], [RequestAliasRedirect], [NoMatch]. *)
Inductive matcher_result (R : Type) : Type :=
| Matched (rule : R) (rv : gmap string value)
| RequestPath (path_info : string)
| RequestAliasRedirect (matched_values : gmap string value) (endpoint : string)
| NoMatch (have_match_for : gset string) (websocket_mismatch : bool).
Arguments Matched {R} rule rv.
Arguments RequestPath {R} path_info.
Arguments RequestAliasRedirect {R} matched_values endpoint.
Arguments NoMatch {R} have_match_for websocket_mismatch.

(** ** The adapter record *)

Module MapAdapter.
Record t : Type := mk {
  server_name : string;
  script_name : string;
  subdomain : option string;
  url_scheme : string;
  path_info : string;
  default_method : string;
  query_args : option qargs;
  websocket : bool
}.
End MapAdapter.
Abbreviation MapAdapter := MapAdapter.t.

(** ** Collaborators outside [map.py] *)

(** [redirect_to] of a rule: a template string or a callable. *)
Inductive redirect_target : Type :=
| RedirectTemplate (template : string)
| RedirectCallable (f : MapAdapter -> gmap string value -> string).

(** What [map.py] uses of a [Rule]. [rule_id] stands for object identity
    ([r is rule]); [build_compare_key] is the sort key of [Map.update], a
    tuple of integers compared lexicographically. *)
Class RuleLike (R : Type) : Type := {
  rule_id : R -> nat;
  endpoint : R -> string;
  build_only : R -> bool;
  rule_websocket : R -> bool;
  defaults : R -> option (gmap string value);
  redirect_to : R -> option redirect_target;
  build_compare_key : R -> list Z;
  suitable_for : R -> gmap string value -> option string -> bool;
  provides_defaults_for : R -> R -> bool;
  (** [rule.build(values, append_unknown)]; the flag is [None] where the
      caller leaves it to the rule's default *)
  rule_build :
    R -> gmap string value -> option bool -> option (string * string);
  (** [_simple_rule_re.sub(_handle_match, template)] with the rule's
      converters *)
  redirect_template_sub : R -> gmap string value -> string -> string
}.

(** What [map.py] uses of the matcher. *)
Class MatcherLike (M R : Type) : Type := {
  matcher_add : M -> R -> M;
  matcher_update : M -> M;
  matcher_match : M -> string -> string -> string -> bool -> matcher_result R
}.

(** The primitives of [urllib.parse], [werkzeug.urls] and the IDNA codec.
    [idna_encode] is [None] where the codec raises [UnicodeError]. *)
Class Externals : Type := {
  idna_encode : string -> option string;
  _urlencode : gmap string value -> string;
  (** [quote(s, safe)] *)
  quote : string -> string -> string;
  urljoin : string -> string -> string;
  urlunsplit : string -> string -> string -> option string -> string
}.

(** ** Map *)

(** The state of a [Map] that matching and building read. The converter
    table and the query-string sort options are only read by [Rule] and
    are left with it. *)
Record Map (M R : Type) : Type := mkMap {
  _matcher : M;
  _rules_by_endpoint : gmap string (list R);
  _remap : bool;
  default_subdomain : string;
  strict_slashes : bool;
  redirect_defaults : bool;
  host_matching : bool
}.
Arguments mkMap {M R}.
Arguments _matcher {M R}.
Arguments _rules_by_endpoint {M R}.
Arguments _remap {M R}.
Arguments default_subdomain {M R}.
Arguments strict_slashes {M R}.
Arguments redirect_defaults {M R}.
Arguments host_matching {M R}.

(** Python's [<] on tuples of integers. *)
Fixpoint key_lt (k1 k2 : list Z) : bool :=
  match k1, k2 with
  | [], [] => false
  | [], _ :: _ => true
  | _ :: _, [] => false
  | x :: k1', y :: k2' =>
      if (x <? y)%Z then true
      else if (y <? x)%Z then false
      else key_lt k1' k2'
  end.

(** The result of [__init__] of the adapter. *)
Definition MapAdapter_init (server_name script_name : string)
    (subdomain : option string) (url_scheme path_info default_method : string)
    (query_args : option qargs) : MapAdapter :=
  let script_name :=
    if negb (Str.endswith "/" script_name) then script_name +:+ "/"
    else script_name in
  {| MapAdapter.server_name := server_name;
     MapAdapter.script_name := script_name;
     MapAdapter.subdomain := subdomain;
     MapAdapter.url_scheme := url_scheme;
     MapAdapter.path_info := path_info;
     MapAdapter.default_method := default_method;
     MapAdapter.query_args := query_args;
     MapAdapter.websocket :=
       String.eqb url_scheme "ws" || String.eqb url_scheme "wss" |}.

Section MapOps.
Context {R M : Type} `{!RuleLike R} `{!MatcherLike M R} `{!Externals}.

(** [list.sort(key=...)] is stable: an element goes in front of the first
    one whose key is not smaller. *)
Fixpoint sort_insert (x : R) (l : list R) : list R :=
  match l with
  | [] => [x]
  | y :: l' =>
      if key_lt (build_compare_key y) (build_compare_key x)
      then y :: sort_insert x l'
      else x :: y :: l'
  end.

Definition sort_by_build_compare_key (l : list R) : list R :=
  foldr sort_insert [] l.

(** One turn of the loop of [add]. [rule.bind(self)] compiles the rule and
    is the rule's business. *)
Definition Map_add_rule (m : Map M R) (rule : R) : Map M R :=
  {| _matcher :=
       if negb (build_only rule) then matcher_add (_matcher m) rule
       else _matcher m;
     _rules_by_endpoint :=
       <[endpoint rule :=
           default [] (_rules_by_endpoint m !! endpoint rule) ++ [rule]]>
         (_rules_by_endpoint m);
     _remap := _remap m;
     default_subdomain := default_subdomain m;
     strict_slashes := strict_slashes m;
     redirect_defaults := redirect_defaults m;
     host_matching := host_matching m |}.

(** [add]; [rules] is what the factory's [get_rules] yields. *)
Definition Map_add (m : Map M R) (rules : list R) : Map M R :=
  let m := foldl Map_add_rule m rules in
  {| _matcher := _matcher m;
     _rules_by_endpoint := _rules_by_endpoint m;
     _remap := true;
     default_subdomain := default_subdomain m;
     strict_slashes := strict_slashes m;
     redirect_defaults := redirect_defaults m;
     host_matching := host_matching m |}.

(** [__init__] with an empty matcher [matcher0]. *)
Definition Map_init (matcher0 : M) (rules : list (list R))
    (default_subdomain : string)
    (strict_slashes redirect_defaults host_matching : bool) : Map M R :=
  foldl Map_add
    {| _matcher := matcher0;
       _rules_by_endpoint := ∅;
       _remap := true;
       default_subdomain := default_subdomain;
       strict_slashes := strict_slashes;
       redirect_defaults := redirect_defaults;
       host_matching := host_matching |}
    rules.

(** [update]. The second test of [_remap] is the one made under the lock. *)
Definition Map_update (m : Map M R) : Map M R :=
  if negb (_remap m) then m
  else if negb (_remap m) then m
  else
    {| _matcher := matcher_update (_matcher m);
       _rules_by_endpoint := sort_by_build_compare_key <$> _rules_by_endpoint m;
       _remap := false;
       default_subdomain := default_subdomain m;
       strict_slashes := strict_slashes m;
       redirect_defaults := redirect_defaults m;
       host_matching := host_matching m |}.

(** [bind]. *)
Definition Map_bind (m : Map M R) (server_name : string)
    (script_name subdomain : option string)
    (url_scheme default_method : string) (path_info : option string)
    (query_args : option qargs) : result MapAdapter :=
  let server_name := Str.lower server_name in
  let checked : result (option string) :=
    if host_matching m then
      match subdomain with
      | Some _ =>
          Raise
            (RuntimeError "host matching enabled and a subdomain was provided")
      | None => Ok subdomain
      end
    else
      match subdomain with
      | None => Ok (Some (default_subdomain m))
      | Some _ => Ok subdomain
      end in
  match checked with
  | Raise e => Raise e
  | Ok subdomain =>
      let script_name := default "/" script_name in
      let path_info := default "/" path_info in
      let '(server_name, port_sep, port) := Str.partition ":" server_name in
      match idna_encode server_name with
      | None => Raise BadHost
      | Some server_name =>
          Ok (MapAdapter_init (server_name +:+ port_sep +:+ port) script_name
                subdomain url_scheme path_info default_method query_args)
      end
  end.

End MapOps.

(** ** MapAdapter *)

Inductive matched (R : Type) : Type :=
| MatchedRule (rule : R)
| MatchedEndpoint (endpoint : string).
Arguments MatchedRule {R} rule.
Arguments MatchedEndpoint {R} endpoint.

(** The [values] block at the head of [build]. *)
Definition normalize_values (values : build_values) : gmap string value :=
  match values with
  | NoValues => ∅
  | PlainDict d =>
      if bool_decide (d = ∅) then ∅
      else filter (λ kv, is_none kv.2 = false) d
  | MultiDict d =>
      if bool_decide (d = ∅) then ∅
      else
        omap (λ v, if (length v =? 0)%nat then None
                   else Some (if (length v =? 1)%nat then hd VNone v
                              else VList v)) d
  end.

(** [path_part] of [match]. *)
Definition path_part (path_info : string) : string :=
  if Str.truthy path_info then "/" +:+ Str.lstrip "/" path_info else "".

Definition option_string_eqb (a b : option string) : bool :=
  match a, b with
  | Some x, Some y => String.eqb x y
  | None, None => true
  | _, _ => false
  end.

Section AdapterOps.
Context {R M : Type} `{!RuleLike R} `{!MatcherLike M R} `{!Externals}.

Definition MapAdapter_get_host (m : Map M R) (a : MapAdapter)
    (domain_part : option string) : string :=
  if host_matching m then
    match domain_part with
    | None => MapAdapter.server_name a
    | Some d => d
    end
  else
    let subdomain :=
      match domain_part with
      | None => MapAdapter.subdomain a
      | Some d => Some d
      end in
    match subdomain with
    | Some s =>
        if Str.truthy s then s +:+ "." +:+ MapAdapter.server_name a
        else MapAdapter.server_name a
    | None => MapAdapter.server_name a
    end.

Definition MapAdapter_encode_query_args (q : qargs) : string :=
  match q with
  | QMapping m => _urlencode m
  | QString s => s
  end.

Definition MapAdapter_make_redirect_url (m : Map M R) (a : MapAdapter)
    (path_info : string) (query_args : option qargs)
    (domain_part : option string) : string :=
  let query_args :=
    match query_args with
    | None => MapAdapter.query_args a
    | Some _ => query_args
    end in
  let query_str :=
    match query_args with
    | Some q =>
        if qargs_truthy q then Some (MapAdapter_encode_query_args q) else None
    | None => None
    end in
  let scheme :=
    if Str.truthy (MapAdapter.url_scheme a) then MapAdapter.url_scheme a
    else "http" in
  let host := MapAdapter_get_host m a domain_part in
  let path :=
    Str.strip "/" (MapAdapter.script_name a) +:+ "/"
      +:+ Str.lstrip "/" path_info in
  urlunsplit scheme host path query_str.

(** The [for] loop of [_partial_build]. *)
Fixpoint _partial_build_scan (m : Map M R) (a : MapAdapter)
    (values : gmap string value) (method : option string)
    (append_unknown : bool) (first_match : option (string * string * bool))
    (rules : list R) : option (string * string * bool) :=
  match rules with
  | [] => first_match
  | rule :: rest =>
      if suitable_for rule values method then
        match rule_build rule values (Some append_unknown) with
        | Some build_rv =>
            let rv := (build_rv.1, build_rv.2, rule_websocket rule) in
            if host_matching m then
              if String.eqb rv.1.1 (MapAdapter.server_name a) then Some rv
              else
                match first_match with
                | None =>
                    _partial_build_scan m a values method append_unknown
                      (Some rv) rest
                | Some _ =>
                    _partial_build_scan m a values method append_unknown
                      first_match rest
                end
            else Some rv
        | None =>
            _partial_build_scan m a values method append_unknown
              first_match rest
        end
      else
        _partial_build_scan m a values method append_unknown first_match rest
  end.

Definition MapAdapter__partial_build (m : Map M R) (a : MapAdapter)
    (endpoint : string) (values : gmap string value) (method : option string)
    (append_unknown : bool) : option (string * string * bool) :=
  let scan method :=
    _partial_build_scan m a values method append_unknown None
      (default [] (_rules_by_endpoint m !! endpoint)) in
  match method with
  | None =>
      match scan (Some (MapAdapter.default_method a)) with
      | Some rv => Some rv
      | None => scan None
      end
  | Some _ => scan method
  end.

(** The scheme and [force_external] that [build] ends up with. *)
Definition build_scheme (websocket force_external : bool)
    (url_scheme : string) : bool * string :=
  let secure := String.eqb url_scheme "https" || String.eqb url_scheme "wss" in
  if websocket then (true, if secure then "wss" else "ws")
  else if Str.truthy url_scheme then
    (force_external, if secure then "https" else "http")
  else (force_external, url_scheme).

(** [build]. The [BuildError] also holds the adapter, which is the [a] at
    hand. *)
Definition MapAdapter_build (m : Map M R) (a : MapAdapter)
    (endpoint : string) (values : build_values) (method : option string)
    (force_external append_unknown : bool) (url_scheme : option string)
    : Map M R * result string :=
  let m := Map_update m in
  let values := normalize_values values in
  match MapAdapter__partial_build m a endpoint values method append_unknown with
  | None => (m, Raise (BuildError endpoint values method))
  | Some (domain_part, path, websocket) =>
      let host := MapAdapter_get_host m a (Some domain_part) in
      let url_scheme := default (MapAdapter.url_scheme a) url_scheme in
      let '(force_external, url_scheme) :=
        build_scheme websocket force_external url_scheme in
      if negb force_external
         && ((host_matching m && String.eqb host (MapAdapter.server_name a))
             || (negb (host_matching m)
                 && option_string_eqb (Some domain_part)
                      (MapAdapter.subdomain a)))
      then
        (m, Ok (Str.rstrip "/" (MapAdapter.script_name a) +:+ "/"
                  +:+ Str.lstrip "/" path))
      else
        let scheme :=
          if Str.truthy url_scheme then url_scheme +:+ ":" else "" in
        (m, Ok (scheme +:+ "//" +:+ host
                  +:+ Str.drop_last (MapAdapter.script_name a) +:+ "/"
                  +:+ Str.lstrip "/" path))
  end.

Definition MapAdapter_make_alias_redirect_url (m : Map M R) (a : MapAdapter)
    (path endpoint : string) (values : gmap string value) (method : string)
    (query_args : qargs) : Map M R * result string :=
  let '(m, built) :=
    MapAdapter_build m a endpoint (PlainDict values) (Some method) true false
      None in
  match built with
  | Raise e => (m, Raise e)
  | Ok url =>
      let url :=
        if qargs_truthy query_args
        then url +:+ "?" +:+ MapAdapter_encode_query_args query_args
        else url in
      if String.eqb url path
      then
        (m, Raise
              (AssertionError
                 "detected invalid alias setting. No canonical URL found"))
      else (m, Ok url)
  end.

(** The body of the [for] loop of [get_default_redirect] for a rule [r]
    that passed the tests. *)
Definition default_redirect_of (m : Map M R) (a : MapAdapter) (r : R)
    (values : gmap string value) (query_args : qargs)
    : result (option string) :=
  match defaults r with
  | None => Raise TypeError
  | Some d =>
      let values := d ∪ values in
      match rule_build r values None with
      | None => Raise TypeError
      | Some (domain_part, path) =>
          Ok (Some (MapAdapter_make_redirect_url m a path (Some query_args)
                      (Some domain_part)))
      end
  end.

(** The [for] loop of [get_default_redirect]. *)
Fixpoint get_default_redirect_scan (m : Map M R) (a : MapAdapter) (rule : R)
    (method : string) (values : gmap string value) (query_args : qargs)
    (rules : list R) : result (option string) :=
  match rules with
  | [] => Ok None
  | r :: rest =>
      if (rule_id r =? rule_id rule)%nat then Ok None
      else if provides_defaults_for r rule
              && suitable_for r values (Some method)
      then default_redirect_of m a r values query_args
      else get_default_redirect_scan m a rule method values query_args rest
  end.

Definition MapAdapter_get_default_redirect (m : Map M R) (a : MapAdapter)
    (rule : R) (method : string) (values : gmap string value)
    (query_args : qargs) : result (option string) :=
  if negb (redirect_defaults m) then Raise (AssertionError "")
  else
    match _rules_by_endpoint m !! endpoint rule with
    | None => Raise (KeyError (endpoint rule))
    | Some rules =>
        get_default_redirect_scan m a rule method values query_args rules
    end.

(** The [redirect_to] branch of [match]. *)
Definition redirect_to_url (a : MapAdapter) (rule : R)
    (rv : gmap string value) (target : redirect_target) : string :=
  let redirect_url :=
    match target with
    | RedirectTemplate template => redirect_template_sub rule rv template
    | RedirectCallable f => f a rv
    end in
  let netloc :=
    match MapAdapter.subdomain a with
    | Some s =>
        if Str.truthy s then s +:+ "." +:+ MapAdapter.server_name a
        else MapAdapter.server_name a
    | None => MapAdapter.server_name a
    end in
  urljoin
    ((if Str.truthy (MapAdapter.url_scheme a) then MapAdapter.url_scheme a
      else "http")
       +:+ "://" +:+ netloc +:+ MapAdapter.script_name a)
    redirect_url.

(** What [match] does with the matcher's answer, on the updated map. *)
Definition match_outcome (m : Map M R) (a : MapAdapter)
    (domain_part path_part method : string) (return_rule : bool)
    (query_args : qargs) (outcome : matcher_result R)
    : Map M R * result (matched R * gmap string value) :=
  match outcome with
  | RequestPath e_path_info =>
      let new_path := quote e_path_info "!$&'()*+,/:;=@" in
      (m, Raise (RequestRedirect
                   (MapAdapter_make_redirect_url m a new_path
                      (Some query_args) None)))
  | RequestAliasRedirect matched_values e_endpoint =>
      let '(m, url) :=
        MapAdapter_make_alias_redirect_url m a
          (domain_part +:+ "|" +:+ path_part) e_endpoint matched_values method
          query_args in
      match url with
      | Ok url => (m, Raise (RequestRedirect url))
      | Raise e => (m, Raise e)
      end
  | NoMatch have_match_for websocket_mismatch =>
      if negb (bool_decide (have_match_for = ∅)) then
        (m, Raise (MethodNotAllowed (elements have_match_for)))
      else if websocket_mismatch then (m, Raise WebsocketMismatch)
      else (m, Raise NotFound)
  | Matched rule rv =>
      let redirect :=
        if redirect_defaults m
        then MapAdapter_get_default_redirect m a rule method rv query_args
        else Ok None in
      match redirect with
      | Raise e => (m, Raise e)
      | Ok (Some redirect_url) => (m, Raise (RequestRedirect redirect_url))
      | Ok None =>
          match redirect_to rule with
          | Some target =>
              (m, Raise (RequestRedirect (redirect_to_url a rule rv target)))
          | None =>
              if return_rule then (m, Ok (MatchedRule rule, rv))
              else (m, Ok (MatchedEndpoint (endpoint rule), rv))
          end
      end
  end.

(** The [method], [query_args], [websocket] and [domain_part] that [match]
    works with. *)
Definition match_method (a : MapAdapter) (method : option string) : string :=
  Str.upper
    (match method with
     | Some s => if Str.truthy s then s else MapAdapter.default_method a
     | None => MapAdapter.default_method a
     end).

Definition match_query_args (a : MapAdapter) (query_args : option qargs)
    : qargs :=
  match query_args with
  | None =>
      match MapAdapter.query_args a with
      | Some q => if qargs_truthy q then q else QMapping ∅
      | None => QMapping ∅
      end
  | Some q => q
  end.

Definition match_websocket (a : MapAdapter) (websocket : option bool) : bool :=
  default (MapAdapter.websocket a) websocket.

Definition match_domain_part (m : Map M R) (a : MapAdapter) : string :=
  match MapAdapter.subdomain a with
  | Some s => if negb (host_matching m) then s else MapAdapter.server_name a
  | None => MapAdapter.server_name a
  end.

(** The call [self.map._matcher.match(...)] of [match], on the updated
    map. *)
Definition matcher_query (m : Map M R) (a : MapAdapter)
    (path_info method : option string) (websocket : option bool)
    : matcher_result R :=
  let m := Map_update m in
  matcher_match (_matcher m) (match_domain_part m a)
    (path_part (default (MapAdapter.path_info a) path_info))
    (match_method a method) (match_websocket a websocket).

(** [match]. *)
Definition MapAdapter_match (m : Map M R) (a : MapAdapter)
    (path_info method : option string) (return_rule : bool)
    (query_args : option qargs) (websocket : option bool)
    : Map M R * result (matched R * gmap string value) :=
  let m' := Map_update m in
  match_outcome m' a (match_domain_part m' a)
    (path_part (default (MapAdapter.path_info a) path_info))
    (match_method a method) return_rule (match_query_args a query_args)
    (matcher_query m a path_info method websocket).

End AdapterOps.

(** ** Reference definitions

    What the loops of the adapter are meant to compute, written with list
    functions; the properties below relate the loops to them. *)

Section Reference.
Context {R M : Type} `{!RuleLike R} `{!MatcherLike M R} `{!Externals}.

(** What a rule contributes to [_partial_build]: its domain part, path and
    websocket flag when it is suitable and its substitution succeeds. *)
Definition build_candidate (values : gmap string value)
    (method : option string) (append_unknown : bool) (rule : R)
    : option (string * string * bool) :=
  if suitable_for rule values method then
    match rule_build rule values (Some append_unknown) with
    | Some (domain_part, path) => Some (domain_part, path, rule_websocket rule)
    | None => None
    end
  else None.

(** The candidates of an endpoint's rule list, in list order. *)
Definition build_candidates (values : gmap string value)
    (method : option string) (append_unknown : bool) (rules : list R)
    : list (string * string * bool) :=
  omap (build_candidate values method append_unknown) rules.

(** The first candidate; under host matching the first candidate on the
    adapter's own server name, with the first candidate as fallback. *)
Definition select_candidate (m : Map M R) (a : MapAdapter)
    (candidates : list (string * string * bool))
    : option (string * string * bool) :=
  if host_matching m then
    match
      List.find (λ rv, String.eqb rv.1.1 (MapAdapter.server_name a)) candidates
    with
    | Some rv => Some rv
    | None => head candidates
    end
  else head candidates.

(** [x] may stand in front of [y] in a sorted rule list. *)
Definition key_le (x y : R) : Prop :=
  key_lt (build_compare_key y) (build_compare_key x) = false.

(** The rules in front of [rule] in a rule list. *)
Fixpoint rules_before (rule : R) (rules : list R) : list R :=
  match rules with
  | [] => []
  | r :: rest =>
      if (rule_id r =? rule_id rule)%nat then []
      else r :: rules_before rule rest
  end.

(** The domain part an adapter is bound to: its server name under host
    matching, its subdomain otherwise. *)
Definition bound_domain_part (m : Map M R) (a : MapAdapter) : option string :=
  if host_matching m then Some (MapAdapter.server_name a)
  else MapAdapter.subdomain a.

End Reference.



(** ** The rest of [Map] and [MapAdapter]

    [is_endpoint_expecting], [bind_to_environ], [test], [allowed_methods]
    and [dispatch], with what they need of Python's strings and of the
    collaborators. *)

Module PyStr.

(** [s.split(c)] for a one-character separator: the piece in front of the
    first separator and the pieces behind it. *)
Fixpoint split_go (c : ascii) (s : string) : string * list string :=
  match s with
  | String a s' =>
      let '(piece, pieces) := split_go c s' in
      if Ascii.eqb a c then ("", piece :: pieces)
      else (String a piece, pieces)
  | EmptyString => ("", [])
  end.

Definition split (c : ascii) (s : string) : list string :=
  let '(piece, pieces) := split_go c s in piece :: pieces.

(** [sep.join(pieces)]. *)
Fixpoint join (sep : string) (pieces : list string) : string :=
  match pieces with
  | [] => ""
  | [piece] => piece
  | piece :: rest => piece +:+ sep +:+ join sep rest
  end.

(** [str.isspace] on the characters below 256. *)
Definition is_space (a : ascii) : bool :=
  let n := N_of_ascii a in
  ((9 <=? n)%N && (n <=? 13)%N) || ((28 <=? n)%N && (n <=? 32)%N)
  || (n =? 133)%N || (n =? 160)%N.

Fixpoint lstrip_space (s : string) : string :=
  match s with
  | String a s' => if is_space a then lstrip_space s' else s
  | EmptyString => EmptyString
  end.

Fixpoint rstrip_space (s : string) : string :=
  match s with
  | String a s' =>
      let r := rstrip_space s' in
      if is_space a && String.eqb r "" then "" else String a r
  | EmptyString => EmptyString
  end.

(** [s.strip()]. *)
Definition strip (s : string) : string := lstrip_space (rstrip_space s).

(** [s.endswith(suffix)]. *)
Definition endswith (suffix s : string) : bool :=
  let n := String.length s in
  let k := String.length suffix in
  (k <=? n)%nat && String.eqb (String.substring (n - k) k s) suffix.

(** [s[:-k]] for a positive [k]. *)
Definition drop_end (k : nat) (s : string) : string :=
  String.substring 0 (String.length s - k) s.

(** [l[-n:]] and [l[:-n]] for a positive [n]. *)
Definition last_n {A : Type} (n : nat) (l : list A) : list A :=
  drop (length l - n) l.
Definition but_last_n {A : Type} (n : nat) (l : list A) : list A :=
  take (length l - n) l.

End PyStr.

(** [rule.arguments], the names a rule accepts. *)
Class RuleArguments (R : Type) : Type := {
  rule_arguments : R -> gset string
}.

(** What [bind_to_environ] takes from [werkzeug.wsgi] and
    [werkzeug._internal]: the host of an environment and the decoding of
    its strings. *)
Class WsgiExternals : Type := {
  wsgi_get_host : gmap string string -> string;
  _wsgi_decoding_dance : string -> string
}.

(** The warning of [bind_to_environ], with the two names it shows. *)
Inductive warning : Type :=
| ServerNameMismatch (wsgi_server_name server_name : string).

(** The exceptions that are [HTTPException]s: those that [match] raises on
    purpose, as its docstring says, and [BadHost]. *)
Definition is_HTTPException (e : exn) : bool :=
  match e with
  | RequestRedirect _ | MethodNotAllowed _ | WebsocketMismatch | NotFound
  | BadHost => true
  | _ => false
  end.

(** The first component of what [match] returns, read as an endpoint; with
    [return_rule=False] it is one. *)
Definition matched_endpoint {R : Type} `{!RuleLike R} (x : matched R)
    : string :=
  match x with
  | MatchedEndpoint e => e
  | MatchedRule rule => endpoint rule
  end.

Section MoreOps.
Context {R M : Type} `{!RuleLike R} `{!MatcherLike M R} `{!Externals}.
Context `{!RuleArguments R} `{!WsgiExternals}.

(** The [for] loop of [is_endpoint_expecting]. *)
Fixpoint is_endpoint_expecting_scan (arguments : gset string)
    (rules : list R) : bool :=
  match rules with
  | [] => false
  | rule :: rest =>
      if bool_decide (arguments ⊆ rule_arguments rule) then true
      else is_endpoint_expecting_scan arguments rest
  end.

Definition Map_is_endpoint_expecting (m : Map M R) (endpoint : string)
    (arguments : list string) : Map M R * result bool :=
  let m := Map_update m in
  let arguments : gset string := list_to_set arguments in
  match _rules_by_endpoint m !! endpoint with
  | None => (m, Raise (KeyError endpoint))
  | Some rules => (m, Ok (is_endpoint_expecting_scan arguments rules))
  end.

(** [iter_rules(endpoint)] for a given endpoint. *)
Definition Map_iter_rules_of (m : Map M R) (endpoint : string)
    : Map M R * result (list R) :=
  let m := Map_update m in
  match _rules_by_endpoint m !! endpoint with
  | None => (m, Raise (KeyError endpoint))
  | Some rules => (m, Ok rules)
  end.

(** The subdomain that [bind_to_environ] works out from the two server
    names, and the warning it gives when they do not fit. *)
Definition environ_subdomain (wsgi_server_name server_name : string)
    : list warning * string :=
  let cur_server_name := PyStr.split "." wsgi_server_name in
  let real_server_name := PyStr.split "." server_name in
  let offset := length real_server_name in
  if bool_decide (PyStr.last_n offset cur_server_name ≠ real_server_name)
  then ([ServerNameMismatch wsgi_server_name server_name], "<invalid>")
  else
    ([], PyStr.join "."
           (filter (λ label, label ≠ "")
              (PyStr.but_last_n offset cur_server_name))).

(** The scheme [bind_to_environ] works with: that of the environment,
    turned into [ws] or [wss] for a websocket upgrade. *)
Definition environ_scheme (env : gmap string string) (scheme : string)
    : string :=
  let upgrade :=
    existsb (λ v, String.eqb (PyStr.strip v) "upgrade")
      (PyStr.split "," (Str.lower (default "" (env !! "HTTP_CONNECTION")))) in
  if upgrade
     && String.eqb (Str.lower (default "" (env !! "HTTP_UPGRADE"))) "websocket"
  then if String.eqb scheme "https" then "wss" else "ws"
  else scheme.

(** The server name [bind_to_environ] works with. *)
Definition environ_server_name (wsgi_server_name scheme : string)
    (server_name : option string) : string :=
  match server_name with
  | None => wsgi_server_name
  | Some server_name =>
      let server_name := Str.lower server_name in
      if (String.eqb scheme "http" || String.eqb scheme "ws")
         && PyStr.endswith ":80" server_name
      then PyStr.drop_end 3 server_name
      else if (String.eqb scheme "https" || String.eqb scheme "wss")
              && PyStr.endswith ":443" server_name
      then PyStr.drop_end 4 server_name
      else server_name
  end.

(** [bind_to_environ], on the environment itself. The warnings it gives
    come back beside the result. *)
Definition Map_bind_to_environ (m : Map M R) (environ : gmap string string)
    (server_name subdomain : option string)
    : list warning * result MapAdapter :=
  let env := environ in
  let wsgi_server_name := Str.lower (wsgi_get_host env) in
  match env !! "wsgi.url_scheme" with
  | None => ([], Raise (KeyError "wsgi.url_scheme"))
  | Some scheme =>
      let scheme := environ_scheme env scheme in
      let server_name :=
        environ_server_name wsgi_server_name scheme server_name in
      let '(warnings, subdomain) :=
        match subdomain with
        | None =>
            if negb (host_matching m) then
              let '(warnings, subdomain) :=
                environ_subdomain wsgi_server_name server_name in
              (warnings, Some subdomain)
            else ([], subdomain)
        | Some _ => ([], subdomain)
        end in
      let _get_wsgi_string name := _wsgi_decoding_dance <$> (env !! name) in
      let script_name := _get_wsgi_string "SCRIPT_NAME" in
      let path_info := _get_wsgi_string "PATH_INFO" in
      let query_args := _get_wsgi_string "QUERY_STRING" in
      match env !! "REQUEST_METHOD" with
      | None => (warnings, Raise (KeyError "REQUEST_METHOD"))
      | Some request_method =>
          (warnings,
           Map_bind m server_name script_name subdomain scheme request_method
             path_info (QString <$> query_args))
      end
  end.

(** [test]. *)
Definition MapAdapter_test (m : Map M R) (a : MapAdapter)
    (path_info method : option string) : Map M R * result bool :=
  let '(m, matched) := MapAdapter_match m a path_info method false None None in
  match matched with
  | Raise (RequestRedirect _) => (m, Ok true)
  | Raise e => if is_HTTPException e then (m, Ok false) else (m, Raise e)
  | Ok _ => (m, Ok true)
  end.

(** [allowed_methods]. *)
Definition MapAdapter_allowed_methods (m : Map M R) (a : MapAdapter)
    (path_info : option string) : Map M R * result (list string) :=
  let '(m, matched) :=
    MapAdapter_match m a path_info (Some "--") false None None in
  match matched with
  | Raise (MethodNotAllowed valid_methods) => (m, Ok valid_methods)
  | Raise e => if is_HTTPException e then (m, Ok []) else (m, Raise e)
  | Ok _ => (m, Ok [])
  end.

(** [dispatch]. What it returns is the response of the view ([inl]) or an
    exception handed back as the response ([inr]). *)
Definition MapAdapter_dispatch {W : Type} (m : Map M R) (a : MapAdapter)
    (view_func : string -> gmap string value -> result W)
    (path_info method : option string) (catch_http_exceptions : bool)
    : Map M R * result (W + exn) :=
  let '(m, matched) := MapAdapter_match m a path_info method false None None in
  let inner : result (W + exn) :=
    match matched with
    | Raise (RequestRedirect new_url) => Ok (inr (RequestRedirect new_url))
    | Raise e => Raise e
    | Ok (endpoint, args) =>
        match view_func (matched_endpoint endpoint) args with
        | Ok response => Ok (inl response)
        | Raise e => Raise e
        end
    end in
  match inner with
  | Raise e =>
      if is_HTTPException e && catch_http_exceptions then (m, Ok (inr e))
      else (m, Raise e)
  | Ok response => (m, Ok response)
  end.

End MoreOps.

(** What holds of the rule lists of every map that [__init__], [add] and
    [update] produce: a rule is filed under its own endpoint, no endpoint
    has an empty list, and on a clean map every list is sorted. *)
Definition map_filed {R M : Type} `{!RuleLike R} (m : Map M R) : Prop :=
  ∀ ep rules,
    _rules_by_endpoint m !! ep = Some rules →
    rules ≠ [] ∧ Forall (λ r, endpoint r = ep) rules.

Definition map_sorted {R M : Type} `{!RuleLike R} (m : Map M R) : Prop :=
  _remap m = false →
  ∀ ep rules,
    _rules_by_endpoint m !! ep = Some rules → StronglySorted key_le rules.
(** ** Rules and converters

    [Rule] and its converters are defined in [rules.py] and
    [converters.py], outside [map.py].  The properties of [map.py] alone
    take a rule through [RuleLike]; what a path and its values have to do
    with each other is decided by the rule, and is modelled here from the
    data model of the specification. *)

(** Modelled from the spec: a converter (section 3), defined in
    [converters.py].  [parse] turns a raw segment into a value or fails,
    [format] turns a value into text. *)
Record Converter : Type := mkConverter {
  conv_parse : string -> option value;
  conv_format : value -> string
}.

(** Modelled from the spec: a part of the pattern of a rule (section 3),
    defined in [rules.py]: a literal segment, or a variable segment bound
    to a converter. *)
Inductive part : Type :=
| LiteralPart (text : string)
| VariablePart (name : string) (converter : Converter).

(** Modelled from the spec: a [Rule] (section 3), defined in [rules.py],
    with its pattern, endpoint, methods ([None]: any), defaults,
    [build_only] flag, transport kind, host or subdomain binding and
    build-comparison key.  A rule with [redirect_to] is never returned by
    [match], and is left out. *)
Record PatternRule : Type := mkPatternRule {
  pr_id : nat;
  pr_pattern : list part;
  pr_endpoint : string;
  pr_methods : option (list string);
  pr_defaults : option (gmap string value);
  pr_build_only : bool;
  pr_websocket : bool;
  pr_domain : string;
  pr_key : list Z
}.

(** Python's [==] on the values of routing. *)
Fixpoint value_eqb (v w : value) : bool :=
  match v, w with
  | VNone, VNone => true
  | VStr s, VStr t => String.eqb s t
  | VInt x, VInt y => (x =? y)%Z
  | VList l, VList k =>
      (fix go (l k : list value) : bool :=
         match l, k with
         | [], [] => true
         | x :: l, y :: k => value_eqb x y && go l k
         | _, _ => false
         end) l k
  | _, _ => false
  end.

(** Modelled from the spec: the variables of a pattern (section 3), in
    pattern order. *)
Fixpoint pattern_variables (parts : list part) : list string :=
  match parts with
  | [] => []
  | LiteralPart _ :: rest => pattern_variables rest
  | VariablePart name _ :: rest => name :: pattern_variables rest
  end.

(** Modelled from the spec: the substitution of [build] (section 4.4): the
    literal segments as they are, and for each variable segment the
    [format] of its value by its converter.  It fails when a variable has
    no value. *)
Fixpoint pattern_build (parts : list part) (values : gmap string value)
    : option string :=
  match parts with
  | [] => Some ""
  | LiteralPart text :: rest =>
      match pattern_build rest values with
      | Some path => Some (text +:+ path)
      | None => None
      end
  | VariablePart name converter :: rest =>
      match values !! name, pattern_build rest values with
      | Some v, Some path => Some (conv_format converter v +:+ path)
      | _, _ => None
      end
  end.



(** Modelled from the spec: a rule's method set accepts a method (sections
    3 and 4.4); no method asked for and a rule for any method are
    accepted. *)
Definition rule_accepts (methods : option (list string))
    (method : option string) : bool :=
  match method, methods with
  | Some x, Some xs => bool_decide (x ∈ xs)
  | _, _ => true
  end.

(** Modelled from the spec: the defaults of a rule do not conflict with
    the values (sections 4.3 and 8): no default is given another value by
    them. *)
Definition defaults_agree (defaults : option (gmap string value))
    (values : gmap string value) : bool :=
  match defaults with
  | None => true
  | Some d =>
      bool_decide
        (map_Forall
           (λ k v, from_option (λ w, value_eqb w v) true (values !! k) = true)
           d)
  end.

(** Modelled from the spec: [Rule.suitable_for] (section 4.4): the method
    is accepted, the values supply every variable of the pattern, and the
    defaults do not conflict with them. *)
Definition PatternRule_suitable_for (r : PatternRule)
    (values : gmap string value) (method : option string) : bool :=
  rule_accepts (pr_methods r) method
  && forallb (λ name, bool_decide (is_Some (values !! name)))
       (pattern_variables (pr_pattern r))
  && defaults_agree (pr_defaults r) values.

(** Modelled from the spec: [Rule.provides_defaults_for] (sections 4.3
    and 8): a rule with defaults, for the endpoint of [rule] and other
    than [rule]. *)
Definition PatternRule_provides_defaults_for (r rule : PatternRule) : bool :=
  bool_decide (is_Some (pr_defaults r))
  && String.eqb (pr_endpoint r) (pr_endpoint rule)
  && negb (pr_id r =? pr_id rule)%nat.

(** Modelled from the spec: [Rule.build] (sections 4.4 and 4.5): the
    domain part of the rule and the substituted path; with
    [append_unknown], which is the default, the values that the pattern
    does not consume follow as a query string. *)
Definition PatternRule_build `{!Externals} (r : PatternRule)
    (values : gmap string value) (append_unknown : option bool)
    : option (string * string) :=
  match pattern_build (pr_pattern r) values with
  | None => None
  | Some path =>
      let unconsumed :=
        filter (λ kv, kv.1 ∉ pattern_variables (pr_pattern r)) values in
      Some (pr_domain r,
            if default true append_unknown
               && negb (bool_decide (unconsumed = ∅))
            then path +:+ "?" +:+ _urlencode unconsumed
            else path)
  end.

#[local] Instance PatternRule_RuleLike `{!Externals} : RuleLike PatternRule := {|
  rule_id := pr_id;
  endpoint := pr_endpoint;
  build_only := pr_build_only;
  rule_websocket := pr_websocket;
  defaults := pr_defaults;
  redirect_to := λ _, None;
  build_compare_key := pr_key;
  suitable_for := PatternRule_suitable_for;
  provides_defaults_for := PatternRule_provides_defaults_for;
  rule_build := PatternRule_build;
  redirect_template_sub := λ _ _ template, template
|}.

(** ** Stand-ins for the collaborators

    Concrete instances of the interfaces, on which the examples run: a rule
    given by its table, a matcher given by its answers, and externals that
    are exact on the ASCII inputs used below. *)

Record StubRule : Type := mkStubRule {
  s_id : nat;
  s_endpoint : string;
  s_build_only : bool;
  s_websocket : bool;
  s_defaults : option (gmap string value);
  s_redirect_to : option redirect_target;
  s_key : list Z;
  s_suitable_for : gmap string value -> option string -> bool;
  s_provides_defaults_for : nat -> bool;
  s_build : gmap string value -> option (string * string)
}.

#[local] Instance StubRule_RuleLike : RuleLike StubRule := {|
  rule_id := s_id;
  endpoint := s_endpoint;
  build_only := s_build_only;
  rule_websocket := s_websocket;
  defaults := s_defaults;
  redirect_to := s_redirect_to;
  build_compare_key := s_key;
  suitable_for := s_suitable_for;
  provides_defaults_for := λ r other, s_provides_defaults_for r (s_id other);
  rule_build := λ r values _, s_build r values;
  redirect_template_sub := λ _ _ template, template
|}.

(** A matcher that is its own [match]. *)
Definition StubMatcher : Type :=
  string -> string -> string -> bool -> matcher_result StubRule.

#[local] Instance StubMatcher_MatcherLike :
  MatcherLike StubMatcher StubRule := {|
  matcher_add := λ mt _, mt;
  matcher_update := λ mt, mt;
  matcher_match := λ mt, mt
|}.

(** [urlunsplit] with a network location and no fragment. *)
Definition stub_urlunsplit (scheme netloc url : string)
    (query : option string) : string :=
  let url :=
    if Str.truthy url && negb (String.prefix "/" url) then "/" +:+ url
    else url in
  let url := "//" +:+ netloc +:+ url in
  let url := if Str.truthy scheme then scheme +:+ ":" +:+ url else url in
  match query with
  | Some q => if Str.truthy q then url +:+ "?" +:+ q else url
  | None => url
  end.

#[local] Instance StubExternals : Externals := {|
  idna_encode := λ s, if Str.contains "*" s then None else Some s;
  _urlencode := λ _, "";
  quote := λ s _, s;
  urljoin := λ base url, base +:+ url;
  urlunsplit := stub_urlunsplit
|}.

(** A rule without variables: it builds [path] under the domain part
    [domain] and accepts the methods [methods] ([None]: any). *)
Definition static_rule (id : nat) (endpoint domain path : string)
    (methods : option (list string)) (websocket : bool) : StubRule :=
  {| s_id := id;
     s_endpoint := endpoint;
     s_build_only := false;
     s_websocket := websocket;
     s_defaults := None;
     s_redirect_to := None;
     s_key := [0; 0; 0]%Z;
     s_suitable_for := λ _ method,
       match method, methods with
       | Some x, Some xs => bool_decide (x ∈ xs)
       | _, _ => true
       end;
     s_provides_defaults_for := λ _, false;
     s_build := λ _, Some (domain, path) |}.

(** [Map([Rule("/ws", methods=["POST"], endpoint="post"),
          Rule("/ws", websocket=True, endpoint="ws")])]
    bound to [example.com]: a [GET] of [/ws] over HTTP misses the first rule
    by its method and the second by its transport. *)
Definition post_rule : StubRule :=
  static_rule 1 "post" "" "/ws" (Some ["POST"]) false.
Definition ws_rule : StubRule := static_rule 2 "ws" "" "/ws" None true.

Definition ws_matcher : StubMatcher := λ domain_part path method websocket,
  if String.eqb path "/ws" then
    if websocket then Matched ws_rule ∅
    else if String.eqb method "POST" then Matched post_rule ∅
    else NoMatch {["POST"]} true
  else NoMatch ∅ false.

Definition ws_map : Map StubMatcher StubRule :=
  Map_init ws_matcher [[post_rule]; [ws_rule]] "" true true false.

Definition http_adapter : MapAdapter :=
  MapAdapter_init "example.com" "/" (Some "") "http" "/" "GET" None.

(** The same map seen from [https://example.com], mounted at [/app]. *)
Definition https_app_adapter : MapAdapter :=
  MapAdapter_init "example.com" "/app" (Some "") "https" "/" "GET" None.

(** [Map([Rule("/foo/<page>", endpoint="foo"),
          Rule("/foo/", defaults={"page": "1"}, endpoint="foo")])]:
    the general rule is registered first, the rule with the default sorts
    first. *)
Definition page_rule : StubRule :=
  {| s_id := 1;
     s_endpoint := "foo";
     s_build_only := false;
     s_websocket := false;
     s_defaults := None;
     s_redirect_to := None;
     s_key := [0; -1; 0]%Z;
     s_suitable_for := λ values _, bool_decide (is_Some (values !! "page"));
     s_provides_defaults_for := λ _, false;
     s_build := λ values,
       match values !! "page" with
       | Some (VStr page) => Some ("", "/foo/" +:+ page)
       | _ => None
       end |}.

Definition first_page_rule : StubRule :=
  {| s_id := 2;
     s_endpoint := "foo";
     s_build_only := false;
     s_websocket := false;
     s_defaults := Some {["page" := VStr "1"]};
     s_redirect_to := None;
     s_key := [0; -1; -1]%Z;
     s_suitable_for := λ values _,
       match values !! "page" with
       | Some (VStr page) => String.eqb page "1"
       | Some _ => false
       | None => true
       end;
     s_provides_defaults_for := λ other, (other =? 1)%nat;
     s_build := λ _, Some ("", "/foo/") |}.

Definition foo_matcher : StubMatcher := λ domain_part path method websocket,
  if websocket then NoMatch ∅ true
  else
    match Str.strip_prefix "/foo/" path with
    | Some "" => Matched first_page_rule {["page" := VStr "1"]}
    | Some page =>
        if Str.contains "/" page then NoMatch ∅ false
        else Matched page_rule {["page" := VStr page]}
    | None => NoMatch ∅ false
    end.

Definition foo_map : Map StubMatcher StubRule :=
  Map_init foo_matcher [[page_rule]; [first_page_rule]] "" true true false.

(** [Map([Rule("/", endpoint="index"),
          Rule("/home", endpoint="index", alias=True)])]. *)
Definition index_rule : StubRule :=
  static_rule 1 "index" "" "/" None false.

Definition home_alias_rule : StubRule :=
  {| s_id := 2;
     s_endpoint := "index";
     s_build_only := false;
     s_websocket := false;
     s_defaults := None;
     s_redirect_to := None;
     s_key := [1; 0; 0]%Z;
     s_suitable_for := λ _ _, true;
     s_provides_defaults_for := λ _, false;
     s_build := λ _, Some ("", "/home") |}.

Definition alias_matcher : StubMatcher :=
  λ domain_part path method websocket,
  if websocket then NoMatch ∅ true
  else if String.eqb path "/" then Matched index_rule ∅
  else if String.eqb path "/home" then RequestAliasRedirect ∅ "index"
  else NoMatch ∅ false.

Definition alias_map : Map StubMatcher StubRule :=
  Map_init alias_matcher [[index_rule]; [home_alias_rule]] "" true true false.

(** An adapter whose "subdomain" is not a host name. *)
Definition slash_domain_adapter : MapAdapter :=
  MapAdapter_init "h" "/" (Some "//h/?") "" "/" "GET"
    (Some (QString "|/home")).





(** [Map([Rule("/", endpoint="index", host="a.example"),
          Rule("/", endpoint="index", host="b.example")],
         host_matching=True)]. *)
Definition index_a_rule : StubRule :=
  static_rule 1 "index" "a.example" "/" None false.
Definition index_b_rule : StubRule :=
  static_rule 2 "index" "b.example" "/" None false.

Definition host_matcher : StubMatcher :=
  λ domain_part path method websocket,
  if websocket then NoMatch ∅ true
  else if String.eqb path "/" then
    if String.eqb domain_part "a.example" then Matched index_a_rule ∅
    else if String.eqb domain_part "b.example" then Matched index_b_rule ∅
    else NoMatch ∅ false
  else NoMatch ∅ false.

Definition host_map : Map StubMatcher StubRule :=
  Map_init host_matcher [[index_a_rule]; [index_b_rule]] "" true true true.

Definition b_adapter : MapAdapter :=
  MapAdapter_init "b.example" "/" None "http" "/" "GET" None.
Definition c_adapter : MapAdapter :=
  MapAdapter_init "c.example" "/" None "http" "/" "GET" None.

(** [Map([Rule("/", endpoint="index"),
          Rule("/downloads/", endpoint="downloads/index"),
          Rule("/downloads/<id>", endpoint="downloads/show")])],
    the example of the docstring of [match]. *)
Definition downloads_index_rule : StubRule :=
  static_rule 2 "downloads/index" "" "/downloads/" None false.

Definition downloads_show_rule : StubRule :=
  {| s_id := 3;
     s_endpoint := "downloads/show";
     s_build_only := false;
     s_websocket := false;
     s_defaults := None;
     s_redirect_to := None;
     s_key := [0; -1; 0]%Z;
     s_suitable_for := λ values _, bool_decide (is_Some (values !! "id"));
     s_provides_defaults_for := λ _, false;
     s_build := λ values,
       match values !! "id" with
       | Some (VStr id) => Some ("", "/downloads/" +:+ id)
       | _ => None
       end |}.

Definition downloads_matcher : StubMatcher :=
  λ domain_part path method websocket,
  if websocket then NoMatch ∅ true
  else if String.eqb path "/" then Matched index_rule ∅
  else if String.eqb path "/downloads" then RequestPath "/downloads/"
  else
    match Str.strip_prefix "/downloads/" path with
    | Some "" => Matched downloads_index_rule ∅
    | Some id =>
        if Str.contains "/" id then NoMatch ∅ false
        else Matched downloads_show_rule {["id" := VStr id]}
    | None => NoMatch ∅ false
    end.

Definition downloads_map : Map StubMatcher StubRule :=
  Map_init downloads_matcher
    [[index_rule]; [downloads_index_rule]; [downloads_show_rule]] "" true true
    false.


(** The arguments of the stand-in rules, by endpoint. *)
#[local] Instance StubRule_RuleArguments : RuleArguments StubRule := {|
  rule_arguments := λ r,
    if String.eqb (s_endpoint r) "foo" then {["page"]}
    else if String.eqb (s_endpoint r) "downloads/show" then {["id"]}
    else ∅
|}.

(** The host of an environment as its [HTTP_HOST], and strings that need
    no decoding. *)
#[local] Instance StubWsgiExternals : WsgiExternals := {|
  wsgi_get_host := λ env, default "" (env !! "HTTP_HOST");
  _wsgi_decoding_dance := λ s, s
|}.

(** A request for [/downloads/42] on [staging.dev.example.com], the host
    of the docstring of [bind_to_environ]. *)
Definition staging_environ : gmap string string :=
  {[ "HTTP_HOST" := "staging.dev.example.com";
     "wsgi.url_scheme" := "http";
     "REQUEST_METHOD" := "GET";
     "SCRIPT_NAME" := "";
     "PATH_INFO" := "/downloads/42";
     "QUERY_STRING" := "" ]}.

(** The same request on a connection asking for a websocket upgrade. *)
Definition upgrade_environ : gmap string string :=
  <["HTTP_CONNECTION" := "keep-alive, Upgrade"]>
    (<["HTTP_UPGRADE" := "WebSocket"]> staging_environ).

(** [Map([Rule("/old", endpoint="old", redirect_to="new/")],
         redirect_defaults=False)]. *)
Definition old_rule : StubRule :=
  {| s_id := 1;
     s_endpoint := "old";
     s_build_only := false;
     s_websocket := false;
     s_defaults := None;
     s_redirect_to := Some (RedirectTemplate "new/");
     s_key := [0; 0; 0]%Z;
     s_suitable_for := λ _ _, true;
     s_provides_defaults_for := λ _, false;
     s_build := λ _, Some ("", "/old") |}.

Definition old_matcher : StubMatcher :=
  λ domain_part path method websocket,
  if String.eqb path "/old" then Matched old_rule ∅ else NoMatch ∅ false.

Definition old_map : Map StubMatcher StubRule :=
  Map_init old_matcher [[old_rule]] "" true false false.

(** A matcher for pattern rules that is its own [match]. *)
Definition PatternMatcher : Type :=
  string -> string -> string -> bool -> matcher_result PatternRule.

#[local] Instance PatternMatcher_MatcherLike :
  MatcherLike PatternMatcher PatternRule := {|
  matcher_add := λ mt _, mt;
  matcher_update := λ mt, mt;
  matcher_match := λ mt, mt
|}.

(** The value of a string of decimal digits. *)
Fixpoint parse_digits (acc : Z) (s : string) : option Z :=
  match s with
  | EmptyString => Some acc
  | String c rest =>
      let n := nat_of_ascii c in
      if (48 <=? n)%nat && (n <=? 57)%nat
      then parse_digits (10 * acc + Z.of_nat (n - 48)) rest
      else None
  end.

(** The [int] converter: one or more digits, read and written in base
    ten. *)
Definition int_converter : Converter :=
  {| conv_parse := λ raw,
       if Str.truthy raw then VInt <$> parse_digits 0 raw else None;
     conv_format := λ v,
       match v with
       | VInt z => pretty z
       | VStr s => s
       | _ => ""
       end |}.









(** [Map([Rule("/downloads/<int:id>", defaults={"id": 7},
               endpoint="downloads.show")])]: a default that the values of
    a match can contradict. *)
Definition seven_rule : PatternRule :=
  {| pr_id := 1;
     pr_pattern := [LiteralPart "/downloads/"; VariablePart "id" int_converter];
     pr_endpoint := "downloads.show";
     pr_methods := None;
     pr_defaults := Some {["id" := VInt 7]};
     pr_build_only := false;
     pr_websocket := false;
     pr_domain := "";
     pr_key := [0; -1; 0]%Z |}.

Definition seven_matcher : PatternMatcher :=
  λ domain_part path method websocket,
  match Str.strip_prefix "/downloads/" path with
  | Some raw =>
      match conv_parse int_converter raw with
      | Some v => Matched seven_rule {["id" := v]}
      | None => NoMatch ∅ false
      end
  | None => NoMatch ∅ false
  end.

Definition seven_map : Map PatternMatcher PatternRule :=
  Map_init seven_matcher [[seven_rule]] "" true false false.


(** * Properties *)

(** ** Strings *)

#[local] Arguments String.append !s1 s2 / : simpl nomatch.

Section StrFacts.

Lemma append_nil_r (s : string) : s +:+ "" = s.
Proof. induction s as [|c s IH]; simpl; [done | by rewrite IH]. Qed.

Lemma append_assoc (s1 s2 s3 : string) :
  (s1 +:+ s2) +:+ s3 = s1 +:+ (s2 +:+ s3).
Proof. induction s1 as [|c s1 IH]; simpl; [done | by rewrite IH]. Qed.

Lemma prefix_nil (s : string) : String.prefix "" s = true.
Proof. by destruct s. Qed.

Lemma lstrip_cons_same (c : ascii) (s : string) :
  Str.lstrip c (String c s) = Str.lstrip c s.
Proof. simpl. by rewrite Ascii.eqb_refl. Qed.

(** A stripped string does not start with the stripped character. *)
Lemma lstrip_head (c : ascii) (s : string) :
  String.prefix (String c "") (Str.lstrip c s) = false.
Proof.
  induction s as [|a s IH]; simpl; [done |].
  destruct (Ascii.eqb_spec a c) as [->|Hne]; [done |].
  simpl. destruct (ascii_dec c a) as [->|]; [done |]. done.
Qed.

(** [lstrip] removes a run of the stripped character and nothing else. *)
Lemma lstrip_decompose (c : ascii) (s : string) :
  ∃ n, s = Str.replicate n c +:+ Str.lstrip c s.
Proof.
  induction s as [|a s [n IH]]; simpl.
  - by exists 0.
  - destruct (Ascii.eqb_spec a c) as [->|Hne].
    + exists (S n). simpl. by rewrite <- IH.
    + by exists 0.
Qed.

End StrFacts.

(** ** The example of the docstrings *)

Example match_downloads :
  (MapAdapter_match downloads_map http_adapter (Some "/downloads/42") None
     false None None).2
  = Ok (MatchedEndpoint "downloads/show", {["id" := VStr "42"]})
  ∧ (MapAdapter_match downloads_map http_adapter (Some "/downloads") None
       false None None).2
    = Raise (RequestRedirect "http://example.com/downloads/")
  ∧ (MapAdapter_match downloads_map http_adapter (Some "/missing") None
       false None None).2
    = Raise NotFound.
Proof. repeat split; vm_compute; reflexivity. Qed.

Example build_downloads :
  (MapAdapter_build downloads_map http_adapter "index" NoValues None false
     true None).2
  = Ok "/"
  ∧ (MapAdapter_build downloads_map http_adapter "downloads/show"
       (PlainDict {["id" := VStr "42"]}) None false true None).2
    = Ok "/downloads/42"
  ∧ (MapAdapter_build downloads_map http_adapter "downloads/show"
       (PlainDict {["id" := VStr "42"]}) None true true None).2
    = Ok "http://example.com/downloads/42".
Proof. repeat split; vm_compute; reflexivity. Qed.

(** ** The path handed to the matcher *)

Section MatchPath.
Context {R M : Type} `{!RuleLike R} `{!MatcherLike M R} `{!Externals}.

Lemma path_part_nonempty (c : ascii) (s : string) :
  path_part (String c s) = "/" +:+ Str.lstrip "/" (String c s).
Proof. done. Qed.

Lemma path_part_slash (c : ascii) (s : string) :
  path_part ("/" +:+ String c s) = path_part (String c s).
Proof.
  rewrite path_part_nonempty. simpl String.append.
  by rewrite path_part_nonempty, lstrip_cons_same.
Qed.

Lemma path_part_slash_slash (c : ascii) (s : string) :
  path_part ("//" +:+ String c s) = path_part (String c s).
Proof.
  change ("//" +:+ String c s) with ("/" +:+ String "/" (String c s)).
  rewrite path_part_slash. apply (path_part_slash c s).
Qed.

Lemma matcher_query_reads_path_part (m : Map M R) (a : MapAdapter)
    (p q : string) (method : option string) (ws : option bool) :
  path_part p = path_part q →
  matcher_query m a (Some p) method ws = matcher_query m a (Some q) method ws.
Proof. intros Hpq. unfold matcher_query. simpl. by rewrite Hpq. Qed.

(** [match] reads [path_info] through [path_part] only. *)
Lemma match_reads_path_part (m : Map M R) (a : MapAdapter) (p q : string)
    (method : option string) (return_rule : bool) (qa : option qargs)
    (ws : option bool) :
  path_part p = path_part q →
  MapAdapter_match m a (Some p) method return_rule qa ws
  = MapAdapter_match m a (Some q) method return_rule qa ws.
Proof.
  intros Hpq. unfold MapAdapter_match, matcher_query. simpl. by rewrite Hpq.
Qed.

(** [match] is what [match_outcome] makes of the matcher's answer about
    [path_part] of the effective path: the [path_info] given, or that of
    the adapter if none is given. *)
Lemma match_asks_matcher (m : Map M R) (a : MapAdapter)
    (path_info method : option string) (return_rule : bool)
    (qa : option qargs) (ws : option bool) :
  let m' := Map_update m in
  let path := path_part (default (MapAdapter.path_info a) path_info) in
  MapAdapter_match m a path_info method return_rule qa ws
  = match_outcome m' a (match_domain_part m' a) path (match_method a method)
      return_rule (match_query_args a qa)
      (matcher_match (_matcher m') (match_domain_part m' a) path
         (match_method a method) (match_websocket a ws)).
Proof. done. Qed.

(** C10. For every call of [match], with a [path_info] or without (the
    adapter's own is used then), the matcher is asked about [path_part] of
    that path and the result of [match] is made from the matcher's answer
    to that question: a [NoMatch] answer makes it raise, a [RequestPath]
    answer makes it redirect.  [path_part] is the empty string for an empty
    path, and otherwise the path with its leading slashes replaced by a
    single one.  So two paths with the same [path_part], and in particular
    [p], ["/" + p] and ["//" + p] for every non-empty [p], put the same
    question to the matcher, and [match] answers them alike. *)
Theorem match_path_info_normalized (m : Map M R) (a : MapAdapter)
    (method : option string) (return_rule : bool) (qa : option qargs)
    (ws : option bool) :
  (∀ path_info : option string,
     let m' := Map_update m in
     let path := path_part (default (MapAdapter.path_info a) path_info) in
     let answer :=
       matcher_match (_matcher m') (match_domain_part m' a) path
         (match_method a method) (match_websocket a ws) in
     matcher_query m a path_info method ws = answer
     ∧ MapAdapter_match m a path_info method return_rule qa ws
       = match_outcome m' a (match_domain_part m' a) path
           (match_method a method) return_rule (match_query_args a qa) answer
     ∧ (∀ have_match_for websocket_mismatch,
          answer = NoMatch have_match_for websocket_mismatch →
          MapAdapter_match m a path_info method return_rule qa ws
          = (m', Raise (if negb (bool_decide (have_match_for = ∅))
                        then MethodNotAllowed (elements have_match_for)
                        else if websocket_mismatch then WebsocketMismatch
                        else NotFound)))
     ∧ (∀ new_path_info,
          answer = RequestPath new_path_info →
          MapAdapter_match m a path_info method return_rule qa ws
          = (m', Raise (RequestRedirect
                          (MapAdapter_make_redirect_url m' a
                             (quote new_path_info "!$&'()*+,/:;=@")
                             (Some (match_query_args a qa)) None)))))
  ∧ MapAdapter_match m a None method return_rule qa ws
    = MapAdapter_match m a (Some (MapAdapter.path_info a)) method return_rule
        qa ws
  ∧ (∀ p q, path_part p = path_part q →
       matcher_query m a (Some p) method ws
       = matcher_query m a (Some q) method ws
       ∧ MapAdapter_match m a (Some p) method return_rule qa ws
         = MapAdapter_match m a (Some q) method return_rule qa ws)
  ∧ path_part "" = ""
  ∧ ∀ c s, let p := String c s in
      path_part p = "/" +:+ Str.lstrip "/" p
      ∧ String.prefix "/" (Str.lstrip "/" p) = false
      ∧ (∃ n, p = Str.replicate n "/" +:+ Str.lstrip "/" p)
      ∧ path_part ("/" +:+ p) = path_part p
      ∧ path_part ("//" +:+ p) = path_part p
      ∧ matcher_query m a (Some ("/" +:+ p)) method ws
        = matcher_query m a (Some p) method ws
      ∧ matcher_query m a (Some ("//" +:+ p)) method ws
        = matcher_query m a (Some p) method ws
      ∧ MapAdapter_match m a (Some ("/" +:+ p)) method return_rule qa ws
        = MapAdapter_match m a (Some p) method return_rule qa ws
      ∧ MapAdapter_match m a (Some ("//" +:+ p)) method return_rule qa ws
        = MapAdapter_match m a (Some p) method return_rule qa ws.
Proof.
  split; [| split; [done | split; [| split; [done |]]]].
  - intros path_info m' path answer.
    split; [done |]. split; [apply match_asks_matcher |].
    split.
    + intros hmf wm Hanswer. rewrite match_asks_matcher.
      fold m' path answer. rewrite Hanswer. simpl.
      destruct (negb _); [done |]. by destruct wm.
    + intros e Hanswer. rewrite match_asks_matcher.
      fold m' path answer. by rewrite Hanswer.
  - intros p q Hpq.
    split; [by apply matcher_query_reads_path_part
           | by apply match_reads_path_part].
  - intros c s p. subst p.
    split; [apply path_part_nonempty |].
    split; [apply lstrip_head |].
    split; [apply lstrip_decompose |].
    split; [apply path_part_slash |].
    split; [apply path_part_slash_slash |].
    split; [apply matcher_query_reads_path_part, path_part_slash |].
    split; [apply matcher_query_reads_path_part, path_part_slash_slash |].
    split; apply match_reads_path_part;
      [apply path_part_slash | apply path_part_slash_slash].
Qed.

End MatchPath.

(** ** What [match] makes of [NoMatch] *)

Section NoMatchOutcome.
Context {R M : Type} `{!RuleLike R} `{!MatcherLike M R} `{!Externals}.

(** C1, as the code has it. On [NoMatch] the allowed methods are looked at
    first: a non-empty set gives [MethodNotAllowed] with those methods,
    whatever the websocket flag says. The flag decides between
    [WebsocketMismatch] and [NotFound] only when the set is empty. *)
Theorem match_no_match (m : Map M R) (a : MapAdapter)
    (path_info method : option string) (return_rule : bool)
    (qa : option qargs) (ws : option bool) (have_match_for : gset string)
    (websocket_mismatch : bool) :
  matcher_query m a path_info method ws
  = NoMatch have_match_for websocket_mismatch →
  (MapAdapter_match m a path_info method return_rule qa ws).2
  = if bool_decide (have_match_for = ∅) then
      if websocket_mismatch then Raise WebsocketMismatch else Raise NotFound
    else Raise (MethodNotAllowed (elements have_match_for)).
Proof.
  intros Hq. unfold MapAdapter_match. rewrite Hq. simpl.
  destruct (bool_decide (have_match_for = ∅)); simpl;
    [by destruct websocket_mismatch | done].
Qed.

End NoMatchOutcome.

Lemma match_no_match_witness :
  (MapAdapter_match ws_map http_adapter (Some "/other") (Some "GET") false
     None None).2
  = Raise NotFound.
Proof.
  etrans.
  - apply (match_no_match ws_map http_adapter (Some "/other") (Some "GET")
             false None None ∅ false).
    vm_compute. reflexivity.
  - reflexivity.
Defined.

(** C1 fails as stated: with allowed methods [{POST}] and the websocket
    flag both reported, [match] raises [MethodNotAllowed], not
    [WebsocketMismatch]. *)
Lemma match_no_match_method_first :
  matcher_query ws_map http_adapter (Some "/ws") (Some "GET") None
  = NoMatch {["POST"]} true
  ∧ (MapAdapter_match ws_map http_adapter (Some "/ws") (Some "GET") false
       None None).2
    = Raise (MethodNotAllowed ["POST"])
  ∧ (MapAdapter_match ws_map http_adapter (Some "/ws") (Some "GET") false
       None None).2
    ≠ Raise WebsocketMismatch.
Proof.
  split; [vm_compute; reflexivity |].
  split; [vm_compute; reflexivity |].
  vm_compute. discriminate.
Qed.

(** ** Binding *)

Lemma partition_spec (c : ascii) (s : string) :
  let '(h, sep, t) := Str.partition c s in
  s = h +:+ sep +:+ t
  ∧ Str.contains c h = false
  ∧ (sep = String c "" ∨ (sep = "" ∧ t = "")).
Proof.
  induction s as [|a s IH]; simpl.
  - repeat split. by right.
  - destruct (Ascii.eqb_spec a c) as [->|Hne].
    + repeat split. by left.
    + destruct (Str.partition c s) as [[h sep] t].
      destruct IH as (Hs & Hh & Hsep). simpl.
      repeat split; [by rewrite Hs | | done].
      by apply Ascii.eqb_neq in Hne as ->.
Qed.

Section Bind.
Context {R M : Type} `{!RuleLike R} `{!MatcherLike M R} `{!Externals}.

(** C6. [bind] lowercases [server_name] and cuts it at the first [":"];
    the part in front is what gets IDNA-encoded, the separator and port
    are put back unchanged. A subdomain passed under host matching is
    rejected with [RuntimeError] before anything else happens. Past that
    check, [bind] raises [BadHost] exactly when the encoding fails, and
    otherwise returns the adapter, with the map's [default_subdomain]
    standing in for a missing subdomain when host matching is off. *)
Theorem bind_spec (m : Map M R) (server_name : string)
    (script_name subdomain : option string)
    (url_scheme default_method : string) (path_info : option string)
    (qa : option qargs) :
  let bound :=
    Map_bind m server_name script_name subdomain url_scheme default_method
      path_info qa in
  let '(host, port_sep, port) := Str.partition ":" (Str.lower server_name) in
  let misuse := host_matching m = true ∧ subdomain ≠ None in
  (Str.lower server_name = host +:+ port_sep +:+ port
   ∧ Str.contains ":" host = false
   ∧ (port_sep = ":" ∨ (port_sep = "" ∧ port = "")))
  ∧ (misuse →
     bound
     = Raise
         (RuntimeError "host matching enabled and a subdomain was provided"))
  ∧ (¬ misuse → (bound = Raise BadHost ↔ idna_encode host = None))
  ∧ (∀ encoded, ¬ misuse → idna_encode host = Some encoded →
     bound
     = Ok (MapAdapter_init (encoded +:+ port_sep +:+ port)
             (default "/" script_name)
             (if host_matching m then None
              else Some (default (default_subdomain m) subdomain))
             url_scheme (default "/" path_info) default_method qa)).
Proof.
  intros bound. subst bound. unfold Map_bind.
  pose proof (partition_spec ":" (Str.lower server_name)) as Hpart.
  destruct (Str.partition ":" (Str.lower server_name))
    as [[host port_sep] port].
  split; [exact Hpart |].
  destruct (host_matching m) eqn:Hhm, subdomain as [sub|]; simpl.
  - split; [done |]. split; [| intros ?]; intros Hn; by destruct Hn.
  - split; [by intros [_ ?] |]. destruct (idna_encode host) as [enc|].
    + split; [by intros _; split | by intros ? _ [= <-]].
    + by split.
  - split; [by intros [? _] |]. destruct (idna_encode host) as [enc|].
    + split; [by intros _; split | by intros ? _ [= <-]].
    + by split.
  - split; [by intros [? _] |]. destruct (idna_encode host) as [enc|].
    + split; [by intros _; split | by intros ? _ [= <-]].
    + by split.
Qed.

End Bind.

Lemma bind_spec_witness :
  Map_bind ws_map "Example.COM:8080" None None "http" "GET" None None
  = Ok (MapAdapter_init "example.com:8080" "/" (Some "") "http" "/" "GET" None)
  ∧ (Map_bind ws_map "*.example.com" None None "http" "GET" None None
     = Raise BadHost).
Proof.
  split.
  - pose proof (bind_spec ws_map "Example.COM:8080" None None "http" "GET"
                  None None) as H.
    simpl in H. destruct H as (_ & _ & _ & H).
    apply (H "example.com"); [by intros [? _] | reflexivity].
  - pose proof (bind_spec ws_map "*.example.com" None None "http" "GET"
                  None None) as H.
    simpl in H. destruct H as (_ & _ & H & _).
    apply H; [by intros [? _] | reflexivity].
Defined.

(** ** Normalising the values of [build] *)

Section BuildValues.
Context {R M : Type} `{!RuleLike R} `{!MatcherLike M R} `{!Externals}.

Lemma normalize_plain_lookup (d : gmap string value) (k : string) :
  normalize_values (PlainDict d) !! k
  = match d !! k with
    | Some v => if is_none v then None else Some v
    | None => None
    end.
Proof.
  unfold normalize_values. case_bool_decide as Hd.
  - subst d. by rewrite lookup_empty.
  - rewrite map_lookup_filter. destruct (d !! k) as [v|]; simpl; [| done].
    by destruct (is_none v).
Qed.

Lemma normalize_multi_lookup (d : gmap string (list value)) (k : string) :
  normalize_values (MultiDict d) !! k
  = match d !! k with
    | Some [] => None
    | Some [x] => Some x
    | Some (x :: y :: l) => Some (VList (x :: y :: l))
    | None => None
    end.
Proof.
  unfold normalize_values. case_bool_decide as Hd.
  - subst d. by rewrite lookup_empty.
  - rewrite lookup_omap. destruct (d !! k) as [[|x [|y l]]|]; done.
Qed.

(** C5, as the code has it. [build] first normalises [values]: no values
    give the empty mapping; a plain dict loses the entries whose value is
    [None]; a [MultiDict] loses its empty groups, has each one-element
    group replaced by that element and keeps longer groups as lists in
    their order. Everything [build] does afterwards depends on the
    normalised mapping alone. *)
Theorem build_normalizes_values :
  normalize_values NoValues = ∅
  ∧ (∀ (d : gmap string value) k,
       normalize_values (PlainDict d) !! k
       = match d !! k with
         | Some v => if is_none v then None else Some v
         | None => None
         end)
  ∧ (∀ (d : gmap string (list value)) k,
       normalize_values (MultiDict d) !! k
       = match d !! k with
         | Some [] => None
         | Some [x] => Some x
         | Some (x :: y :: l) => Some (VList (x :: y :: l))
         | None => None
         end)
  ∧ (∀ (m : Map M R) a endpoint values values' method force_external
       append_unknown url_scheme,
       normalize_values values = normalize_values values' →
       MapAdapter_build m a endpoint values method force_external
         append_unknown url_scheme
       = MapAdapter_build m a endpoint values' method force_external
           append_unknown url_scheme)
  ∧ (∀ (m : Map M R) a endpoint values method force_external append_unknown
       url_scheme e_endpoint e_values e_method,
       (MapAdapter_build m a endpoint values method force_external
          append_unknown url_scheme).2
       = Raise (BuildError e_endpoint e_values e_method) →
       e_values = normalize_values values).
Proof.
  split; [done |].
  split; [apply normalize_plain_lookup |].
  split; [apply normalize_multi_lookup |].
  split.
  - intros m a endpoint values values' method fe au us Hn.
    unfold MapAdapter_build. by rewrite Hn.
  - intros m a endpoint values method fe au us e1 e2 e3.
    unfold MapAdapter_build.
    destruct (MapAdapter__partial_build _ _ _ _ _ _) as [[[dp path] w]|];
      simpl.
    + destruct (build_scheme _ _ _) as [fe' us']. by case_match.
    + by intros [= _ <- _].
Qed.

End BuildValues.

Lemma build_normalizes_values_witness :
  MapAdapter_build ws_map http_adapter "post" NoValues None false true None
  = MapAdapter_build ws_map http_adapter "post" (PlainDict {["q" := VNone]})
      None false true None.
Proof.
  apply (build_normalizes_values (R := StubRule) (M := StubMatcher)).
  vm_compute. reflexivity.
Defined.

(** C5 fails as stated: a [None] that sits alone in a group of a
    [MultiDict] is not dropped; it reaches rule selection as the value of
    its key, here visible in the [BuildError]. The same entry in a plain
    dict is dropped. *)
Lemma build_multidict_keeps_none :
  normalize_values (MultiDict {["a" := [VNone]]}) !! "a" = Some VNone
  ∧ (MapAdapter_build ws_map http_adapter "missing"
       (MultiDict {["a" := [VNone]]}) None false true None).2
    = Raise (BuildError "missing" {["a" := VNone]} None)
  ∧ (MapAdapter_build ws_map http_adapter "missing"
       (PlainDict {["a" := VNone]}) None false true None).2
    = Raise (BuildError "missing" ∅ None).
Proof. repeat split; vm_compute; reflexivity. Qed.

(** ** Rule selection in [build] *)

Section PartialBuild.
Context {R M : Type} `{!RuleLike R} `{!MatcherLike M R} `{!Externals}.

Lemma build_candidates_cons (values : gmap string value)
    (method : option string) (append_unknown : bool) (rule : R)
    (rules : list R) :
  build_candidates values method append_unknown (rule :: rules)
  = match build_candidate values method append_unknown rule with
    | Some rv => rv :: build_candidates values method append_unknown rules
    | None => build_candidates values method append_unknown rules
    end.
Proof. done. Qed.

(** The loop of [_partial_build], started with any [first_match]. *)
Lemma partial_build_scan_spec (m : Map M R) (a : MapAdapter)
    (values : gmap string value) (method : option string)
    (append_unknown : bool) (rules : list R)
    (first_match : option (string * string * bool)) :
  _partial_build_scan m a values method append_unknown first_match rules
  = let candidates := build_candidates values method append_unknown rules in
    if host_matching m then
      match
        List.find (λ rv, String.eqb rv.1.1 (MapAdapter.server_name a))
          candidates
      with
      | Some rv => Some rv
      | None =>
          match first_match with
          | Some rv => Some rv
          | None => head candidates
          end
      end
    else
      match head candidates with
      | Some rv => Some rv
      | None => first_match
      end.
Proof.
  revert first_match. induction rules as [|rule rules IH]; intros fm.
  - simpl. by destruct (host_matching m), fm.
  - cbn [_partial_build_scan]. cbv zeta in *.
    rewrite build_candidates_cons. unfold build_candidate.
    destruct (suitable_for rule values method); [| apply IH].
    destruct (rule_build rule values (Some append_unknown)) as [[dp path]|];
      [| apply IH].
    cbn [fst snd head List.find].
    destruct (host_matching m) eqn:Hhm; [| done].
    destruct (String.eqb dp (MapAdapter.server_name a)); [done |].
    destruct fm as [rv|]; rewrite IH; by case_match.
Qed.

Lemma partial_build_scan_select (m : Map M R) (a : MapAdapter)
    (values : gmap string value) (method : option string)
    (append_unknown : bool) (rules : list R) :
  _partial_build_scan m a values method append_unknown None rules
  = select_candidate m a (build_candidates values method append_unknown rules).
Proof.
  rewrite partial_build_scan_spec. unfold select_candidate. simpl.
  destruct (host_matching m); [done | by case_match].
Qed.

Lemma select_candidate_None (m : Map M R) (a : MapAdapter)
    (candidates : list (string * string * bool)) :
  select_candidate m a candidates = None ↔ candidates = [].
Proof.
  unfold select_candidate. split.
  - destruct candidates as [|rv l]; [done |].
    destruct (host_matching m); [| done]. by case_match.
  - intros ->. by destruct (host_matching m).
Qed.

(** When [_partial_build] finds a rule, [build] returns a URL. *)
Lemma build_selected_ok (m : Map M R) (a : MapAdapter) (endpoint : string)
    (values : build_values) (method : option string)
    (force_external append_unknown : bool) (url_scheme : option string)
    (rv : string * string * bool) :
  MapAdapter__partial_build (Map_update m) a endpoint
    (normalize_values values) method append_unknown = Some rv →
  ∃ url,
    (MapAdapter_build m a endpoint values method force_external
       append_unknown url_scheme).2 = Ok url.
Proof.
  intros Hsel. unfold MapAdapter_build. rewrite Hsel.
  destruct rv as [[dp path] w]. destruct (build_scheme _ _ _) as [fe us].
  case_match; eauto.
Qed.

(** C4. [_partial_build] with no method first selects for the adapter's
    default method and, when that finds nothing, for no method. Selecting
    goes through the endpoint's sorted rule list: the candidates are the
    rules that are suitable and whose substitution succeeds, in list
    order; the first candidate is chosen, except that under host matching
    the first candidate on the adapter's own server name is preferred and
    the first candidate of all is the fallback. [build] raises
    [BuildError] with the endpoint, the values and the method exactly when
    nothing is chosen, which is when there is no candidate. *)
Theorem partial_build_selects (m : Map M R) (a : MapAdapter)
    (endpoint : string) (values : build_values) (method : option string)
    (force_external append_unknown : bool) (url_scheme : option string) :
  let m' := Map_update m in
  let vals := normalize_values values in
  let rules := default [] (_rules_by_endpoint m' !! endpoint) in
  let candidates method :=
    build_candidates vals method append_unknown rules in
  let select method := select_candidate m' a (candidates method) in
  let chosen :=
    match method with
    | None =>
        match select (Some (MapAdapter.default_method a)) with
        | Some rv => Some rv
        | None => select None
        end
    | Some _ => select method
    end in
  let built :=
    MapAdapter_build m a endpoint values method force_external append_unknown
      url_scheme in
  MapAdapter__partial_build m' a endpoint vals method append_unknown = chosen
  ∧ (chosen = None ↔ built.2 = Raise (BuildError endpoint vals method))
  ∧ (chosen = None
     ↔ match method with
       | None =>
           candidates (Some (MapAdapter.default_method a)) = []
           ∧ candidates None = []
       | Some _ => candidates method = []
       end)
  ∧ (is_Some chosen ↔ ∃ url, built.2 = Ok url).
Proof.
  intros m' vals rules candidates select chosen built.
  assert (MapAdapter__partial_build m' a endpoint vals method append_unknown
          = chosen) as Hsel.
  { unfold MapAdapter__partial_build. fold rules.
    rewrite !partial_build_scan_select. by destruct method. }
  split; [done |]. split; [| split].
  - subst built. unfold MapAdapter_build. fold m' vals. rewrite Hsel.
    destruct chosen as [[[dp path] w]|]; [| done].
    split; [done |]. destruct (build_scheme _ _ _) as [fe us].
    by case_match.
  - subst chosen select. destruct method as [meth|].
    + apply select_candidate_None.
    + destruct (select_candidate m' a (candidates _)) eqn:Hdm.
      * split; [done |]. intros [Hc _].
        apply (proj2 (select_candidate_None m' a _)) in Hc. congruence.
      * apply select_candidate_None in Hdm.
        rewrite select_candidate_None. split; [done | by intros [_ ?]].
  - split.
    + intros [rv Hrv]. rewrite <- Hsel in Hrv.
      by apply (build_selected_ok m a endpoint values method force_external
                  append_unknown url_scheme rv).
    + intros [url Hurl]. subst built. unfold MapAdapter_build in Hurl.
      fold m' vals in Hurl. rewrite Hsel in Hurl.
      by destruct chosen.
Qed.

End PartialBuild.

Lemma partial_build_selects_witness :
  MapAdapter__partial_build (Map_update host_map) b_adapter "index"
    (normalize_values NoValues) None true
  = Some ("b.example", "/", false)
  ∧ MapAdapter__partial_build (Map_update host_map) c_adapter "index"
      (normalize_values NoValues) None true
    = Some ("a.example", "/", false)
  ∧ (MapAdapter_build host_map b_adapter "missing" NoValues None false true
       None).2
    = Raise (BuildError "missing" ∅ None).
Proof.
  split; [| split].
  - etrans.
    + apply (proj1 (partial_build_selects host_map b_adapter "index" NoValues
                      None false true None)).
    + vm_compute. reflexivity.
  - etrans.
    + apply (proj1 (partial_build_selects host_map c_adapter "index" NoValues
                      None false true None)).
    + vm_compute. reflexivity.
  - apply (proj1 (proj2 (partial_build_selects host_map b_adapter "missing"
                           NoValues None false true None))).
    vm_compute. reflexivity.
Defined.

Example build_prefers_own_host :
  (MapAdapter_build host_map b_adapter "index" NoValues None false true
     None).2 = Ok "/"
  ∧ (MapAdapter_build host_map c_adapter "index" NoValues None false true
       None).2 = Ok "http://a.example/".
Proof. split; vm_compute; reflexivity. Qed.

(** ** The URL that [build] assembles *)

Section BuildUrl.
Context {R M : Type} `{!RuleLike R} `{!MatcherLike M R} `{!Externals}.

(** The test for the relative form compares the rule's domain part with
    the one the adapter is bound to. *)
Lemma same_domain_part (m : Map M R) (a : MapAdapter) (domain_part : string) :
  (host_matching m
   && String.eqb (MapAdapter_get_host m a (Some domain_part))
        (MapAdapter.server_name a))
  || (negb (host_matching m)
      && option_string_eqb (Some domain_part) (MapAdapter.subdomain a))
  = option_string_eqb (Some domain_part) (bound_domain_part m a).
Proof.
  unfold MapAdapter_get_host, bound_domain_part.
  destruct (host_matching m); simpl; [by rewrite orb_false_r | done].
Qed.

(** [build] once a rule is selected. *)
Lemma build_selected (m : Map M R) (a : MapAdapter) (endpoint : string)
    (values : build_values) (method : option string)
    (force_external append_unknown : bool) (url_scheme : option string)
    (domain_part path : string) (websocket : bool) :
  MapAdapter__partial_build (Map_update m) a endpoint
    (normalize_values values) method append_unknown
  = Some (domain_part, path, websocket) →
  (MapAdapter_build m a endpoint values method force_external append_unknown
     url_scheme).2
  = let m' := Map_update m in
    let eff :=
      build_scheme websocket force_external
        (default (MapAdapter.url_scheme a) url_scheme) in
    if negb eff.1
       && option_string_eqb (Some domain_part) (bound_domain_part m' a)
    then
      Ok (Str.rstrip "/" (MapAdapter.script_name a) +:+ "/"
            +:+ Str.lstrip "/" path)
    else
      Ok ((if Str.truthy eff.2 then eff.2 +:+ ":" else "") +:+ "//"
            +:+ MapAdapter_get_host m' a (Some domain_part)
            +:+ Str.drop_last (MapAdapter.script_name a) +:+ "/"
            +:+ Str.lstrip "/" path).
Proof.
  intros Hsel. unfold MapAdapter_build. rewrite Hsel. cbv zeta.
  destruct (build_scheme _ _ _) as [fe us]. rewrite same_domain_part.
  cbn [fst snd]. by case_match.
Qed.

(** C8. A selected websocket rule always yields the absolute form, with
    scheme [wss] when the requested scheme (the [url_scheme] argument, or
    the adapter's when it is [None]) is [https] or [wss], and [ws]
    otherwise. A selected rule that is not a websocket rule, built with a
    non-empty requested scheme, yields either the relative form or the
    absolute form with scheme [https] when the requested scheme is secure
    and [http] otherwise; it is the absolute form whenever
    [force_external] is set or the domain parts differ. *)
Theorem build_scheme_of_rule (m : Map M R) (a : MapAdapter)
    (endpoint : string) (values : build_values) (method : option string)
    (force_external append_unknown : bool) (url_scheme : option string)
    (domain_part path : string) (websocket : bool) :
  MapAdapter__partial_build (Map_update m) a endpoint
    (normalize_values values) method append_unknown
  = Some (domain_part, path, websocket) →
  let m' := Map_update m in
  let requested := default (MapAdapter.url_scheme a) url_scheme in
  let secure := String.eqb requested "https" || String.eqb requested "wss" in
  let rest :=
    "//" +:+ MapAdapter_get_host m' a (Some domain_part)
      +:+ Str.drop_last (MapAdapter.script_name a) +:+ "/"
      +:+ Str.lstrip "/" path in
  let relative :=
    Str.rstrip "/" (MapAdapter.script_name a) +:+ "/" +:+ Str.lstrip "/" path in
  let built :=
    (MapAdapter_build m a endpoint values method force_external append_unknown
       url_scheme).2 in
  (websocket = true →
   built = Ok ((if secure then "wss" else "ws") +:+ ":" +:+ rest))
  ∧ (websocket = false → requested ≠ "" →
     (built = Ok relative
      ∨ built = Ok ((if secure then "https" else "http") +:+ ":" +:+ rest))
     ∧ (negb force_external
        && option_string_eqb (Some domain_part) (bound_domain_part m' a)
        = false →
        built = Ok ((if secure then "https" else "http") +:+ ":" +:+ rest))).
Proof.
  intros Hsel m' requested secure rest relative built.
  subst built. rewrite (build_selected _ _ _ _ _ _ _ _ _ _ _ Hsel).
  fold m' requested. unfold build_scheme. fold secure. split.
  - intros ->. cbn [fst snd negb andb]. by destruct secure.
  - intros -> Hreq. apply String.eqb_neq in Hreq.
    unfold Str.truthy. rewrite Hreq. cbn [fst snd negb].
    destruct (negb force_external && _).
    + split; [by left | done].
    + split; [right |]; by destruct secure.
Qed.

(** C9. With [force_external] standing for the flag as [build] ends up
    with it (set by the caller or forced by a websocket rule): the
    relative form, the script name followed by the path, is returned
    exactly when the flag is off and the selected rule's domain part is
    the one the adapter is bound to; otherwise the absolute form
    [scheme://host/path] is returned, which starts with ["//"] when the
    scheme [build] ends up with is empty. The host is the domain part
    under host matching, and otherwise the domain part, when it is not
    empty, in front of the server name. *)
Theorem build_relative_or_absolute (m : Map M R) (a : MapAdapter)
    (endpoint : string) (values : build_values) (method : option string)
    (force_external append_unknown : bool) (url_scheme : option string)
    (domain_part path : string) (websocket : bool) :
  MapAdapter__partial_build (Map_update m) a endpoint
    (normalize_values values) method append_unknown
  = Some (domain_part, path, websocket) →
  let m' := Map_update m in
  let eff :=
    build_scheme websocket force_external
      (default (MapAdapter.url_scheme a) url_scheme) in
  let host := MapAdapter_get_host m' a (Some domain_part) in
  let relative :=
    Str.rstrip "/" (MapAdapter.script_name a) +:+ "/" +:+ Str.lstrip "/" path in
  let rest :=
    "//" +:+ host +:+ Str.drop_last (MapAdapter.script_name a) +:+ "/"
      +:+ Str.lstrip "/" path in
  let same :=
    option_string_eqb (Some domain_part) (bound_domain_part m' a) in
  let built :=
    (MapAdapter_build m a endpoint values method force_external append_unknown
       url_scheme).2 in
  eff.1 = force_external || websocket
  ∧ (negb eff.1 && same = true → built = Ok relative)
  ∧ (negb eff.1 && same = false →
     (eff.2 ≠ "" → built = Ok (eff.2 +:+ ":" +:+ rest))
     ∧ (eff.2 = "" → built = Ok rest ∧ String.prefix "//" rest = true))
  ∧ host
    = (if host_matching m' then domain_part
       else if Str.truthy domain_part
            then domain_part +:+ "." +:+ MapAdapter.server_name a
            else MapAdapter.server_name a).
Proof.
  intros Hsel m' eff host relative rest same built.
  subst built. rewrite (build_selected _ _ _ _ _ _ _ _ _ _ _ Hsel).
  subst relative rest same host. cbv zeta. fold m' eff.
  split; [| split; [| split]].
  - subst eff. unfold build_scheme.
    destruct websocket; [by rewrite orb_true_r |].
    rewrite orb_false_r. by case_match.
  - by intros ->.
  - intros ->. split.
    + intros Hne. apply String.eqb_neq in Hne. unfold Str.truthy.
      rewrite Hne. cbn [negb]. by rewrite append_assoc.
    + intros Hempty. rewrite Hempty. split; [reflexivity |]. simpl.
      apply prefix_nil.
  - unfold MapAdapter_get_host. by destruct (host_matching m').
Qed.

End BuildUrl.

Lemma build_scheme_of_rule_witness :
  MapAdapter__partial_build (Map_update ws_map) http_adapter "ws"
    (normalize_values NoValues) None true
  = Some ("", "/ws", true)
  ∧ (MapAdapter_build ws_map http_adapter "ws" NoValues None false true
       None).2
    = Ok "ws://example.com/ws"
  ∧ (MapAdapter_build ws_map https_app_adapter "post" NoValues None true true
       None).2
    = Ok "https://example.com/app/ws".
Proof.
  assert (MapAdapter__partial_build (Map_update ws_map) http_adapter "ws"
            (normalize_values NoValues) None true
          = Some ("", "/ws", true)) as Hws by (vm_compute; reflexivity).
  assert (MapAdapter__partial_build (Map_update ws_map) https_app_adapter
            "post" (normalize_values NoValues) None true
          = Some ("", "/ws", false)) as Hpost by (vm_compute; reflexivity).
  split; [exact Hws |]. split.
  - destruct (build_scheme_of_rule ws_map http_adapter "ws" NoValues None
                false true None "" "/ws" true Hws) as [H _].
    exact (H eq_refl).
  - destruct (build_scheme_of_rule ws_map https_app_adapter "post" NoValues
                None true true None "" "/ws" false Hpost) as [_ H].
    destruct (H eq_refl) as [_ H']; [discriminate |].
    exact (H' eq_refl).
Defined.

Lemma build_relative_or_absolute_witness :
  MapAdapter__partial_build (Map_update ws_map) https_app_adapter "post"
    (normalize_values NoValues) None true
  = Some ("", "/ws", false)
  ∧ (MapAdapter_build ws_map https_app_adapter "post" NoValues None false
       true None).2
    = Ok "/app/ws"
  ∧ (MapAdapter_build ws_map https_app_adapter "post" NoValues None true
       true (Some "")).2
    = Ok "//example.com/app/ws".
Proof.
  assert (MapAdapter__partial_build (Map_update ws_map) https_app_adapter
            "post" (normalize_values NoValues) None true
          = Some ("", "/ws", false)) as Hpost by (vm_compute; reflexivity).
  split; [exact Hpost |]. split.
  - destruct (build_relative_or_absolute ws_map https_app_adapter "post"
                NoValues None false true None "" "/ws" false Hpost)
      as (_ & H & _).
    exact (H eq_refl).
  - destruct (build_relative_or_absolute ws_map https_app_adapter "post"
                NoValues None true true (Some "") "" "/ws" false Hpost)
      as (_ & _ & H & _).
    destruct (H eq_refl) as [_ H']. exact (proj1 (H' eq_refl)).
Defined.

(** ** Alias redirects *)

Lemma first_of_app (x y : ascii) (s t : string) :
  Str.first_of x y (s +:+ t)
  = match Str.first_of x y s with
    | Some c => Some c
    | None => Str.first_of x y t
    end.
Proof.
  induction s as [|a s IH]; simpl; [by destruct (Str.first_of x y t) |].
  by destruct (Ascii.eqb a x || Ascii.eqb a y).
Qed.

(** In [domain|path] with no slash in the domain, a bar comes before any
    slash. *)
Lemma first_of_domain_bar (d p : string) :
  Str.contains "/" d = false →
  Str.first_of "/" "|" (d +:+ "|" +:+ p) = Some "|"%char.
Proof.
  induction d as [|a d IH]; simpl; [done |].
  intros [Ha Hd]%orb_false_elim. rewrite Ha. simpl.
  destruct (Ascii.eqb a "|") eqn:Hbar; [| by apply IH].
  by apply Ascii.eqb_eq in Hbar as ->.
Qed.

Section AliasRedirect.
Context {R M : Type} `{!RuleLike R} `{!MatcherLike M R} `{!Externals}.

(** The only exception of [build] is [BuildError]. *)
Lemma build_raises_build_error (m : Map M R) (a : MapAdapter)
    (endpoint : string) (values : build_values) (method : option string)
    (force_external append_unknown : bool) (url_scheme : option string)
    (e : exn) :
  (MapAdapter_build m a endpoint values method force_external append_unknown
     url_scheme).2 = Raise e →
  e = BuildError endpoint (normalize_values values) method.
Proof.
  unfold MapAdapter_build.
  destruct (MapAdapter__partial_build _ _ _ _ _ _) as [[[dp path] w]|];
    simpl.
  - destruct (build_scheme _ _ _) as [fe us]. by case_match.
  - by intros [= <-].
Qed.

(** With [force_external] set, the scheme in front of ["//"] is one of
    the four fixed ones or empty, so a slash comes before any bar. *)
Lemma forced_scheme_first_slash (websocket : bool) (us rest : string) :
  let eff := build_scheme websocket true us in
  eff.1 = true
  ∧ Str.first_of "/" "|"
      ((if Str.truthy eff.2 then eff.2 +:+ ":" else "") +:+ "//" +:+ rest)
    = Some "/"%char.
Proof.
  unfold build_scheme. destruct websocket.
  - by destruct (_ || _).
  - destruct (Str.truthy us) eqn:Hus.
    + by destruct (_ || _).
    + cbn [fst snd]. by rewrite Hus.
Qed.

(** A URL built with [force_external] has a slash before any bar. *)
Lemma build_external_first_slash (m : Map M R) (a : MapAdapter)
    (endpoint : string) (values : build_values) (method : option string)
    (append_unknown : bool) (url : string) :
  (MapAdapter_build m a endpoint values method true append_unknown None).2
  = Ok url →
  Str.first_of "/" "|" url = Some "/"%char.
Proof.
  destruct (MapAdapter__partial_build (Map_update m) a endpoint
              (normalize_values values) method append_unknown)
    as [[[dp path] w]|] eqn:Hsel.
  - rewrite (build_selected _ _ _ _ _ _ _ _ _ _ _ Hsel). cbv zeta.
    destruct (forced_scheme_first_slash w
                (default (MapAdapter.url_scheme a) None)
                (MapAdapter_get_host (Map_update m) a (Some dp)
                   +:+ Str.drop_last (MapAdapter.script_name a) +:+ "/"
                   +:+ Str.lstrip "/" path)) as [-> Hfirst].
    cbn [negb andb]. by intros [= <-].
  - unfold MapAdapter_build. by rewrite Hsel.
Qed.

(** C7. While [match] handles an alias redirect, the assertion of
    [make_alias_redirect_url] cannot fail when the adapter's domain part is
    that of a host, that is, contains no slash: the built URL has a slash
    in front of any bar, the string [domain|path] it is compared with has
    the bar first. [match] then raises the redirect to the built URL, with
    the query string appended, or the [BuildError] of [build]. *)
Theorem alias_redirect_assertion_holds (m : Map M R) (a : MapAdapter)
    (path_info method : option string) (return_rule : bool)
    (qa : option qargs) (ws : option bool)
    (matched_values : gmap string value) (e_endpoint : string) :
  Str.contains "/" (match_domain_part (Map_update m) a) = false →
  matcher_query m a path_info method ws
  = RequestAliasRedirect matched_values e_endpoint →
  let outcome := (MapAdapter_match m a path_info method return_rule qa ws).2 in
  let query_args := match_query_args a qa in
  (∀ msg, outcome ≠ Raise (AssertionError msg))
  ∧ outcome
    = match
        (MapAdapter_build (Map_update m) a e_endpoint
           (PlainDict matched_values) (Some (match_method a method)) true
           false None).2
      with
      | Ok url =>
          Raise (RequestRedirect
                   (if qargs_truthy query_args
                    then url +:+ "?"
                           +:+ MapAdapter_encode_query_args query_args
                    else url))
      | Raise e => Raise e
      end.
Proof.
  intros Hdomain Hq outcome query_args.
  assert (outcome
          = match
              (MapAdapter_build (Map_update m) a e_endpoint
                 (PlainDict matched_values) (Some (match_method a method))
                 true false None).2
            with
            | Ok url =>
                Raise (RequestRedirect
                         (if qargs_truthy query_args
                          then url +:+ "?"
                                 +:+ MapAdapter_encode_query_args query_args
                          else url))
            | Raise e => Raise e
            end) as Hout.
  { subst outcome. unfold MapAdapter_match. rewrite Hq.
    unfold match_outcome, MapAdapter_make_alias_redirect_url.
    fold query_args.
    destruct (MapAdapter_build _ _ _ _ _ _ _ _) as [m2 [url|e]] eqn:Hb;
      [| done].
    cbn [snd].
    pose proof (build_external_first_slash (Map_update m) a e_endpoint
                  (PlainDict matched_values) (Some (match_method a method))
                  false url) as Hslash.
    rewrite Hb in Hslash. specialize (Hslash eq_refl).
    destruct (String.eqb_spec
                (if qargs_truthy query_args
                 then url +:+ "?" +:+ MapAdapter_encode_query_args query_args
                 else url)
                (match_domain_part (Map_update m) a +:+ "|"
                   +:+ path_part (default (MapAdapter.path_info a) path_info)))
      as [Heq|Hne]; [| done].
    exfalso.
    assert (Str.first_of "/" "|"
              (if qargs_truthy query_args
               then url +:+ "?" +:+ MapAdapter_encode_query_args query_args
               else url) = Some "/"%char) as Hurl.
    { destruct (qargs_truthy query_args); [| done].
      by rewrite first_of_app, Hslash. }
    rewrite Heq, first_of_domain_bar in Hurl; done. }
  split; [| done].
  intros msg. rewrite Hout.
  destruct (MapAdapter_build _ _ _ _ _ _ _ _).2 as [url|e] eqn:Hb; [done |].
  apply build_raises_build_error in Hb. by subst e.
Qed.

End AliasRedirect.

(** ** The order of an endpoint's rules *)

Lemma key_lt_irrefl (k : list Z) : key_lt k k = false.
Proof. induction k as [|x k IH]; simpl; [done |]. by rewrite Z.ltb_irrefl. Qed.

Lemma key_lt_asym (k1 k2 : list Z) :
  key_lt k1 k2 = true → key_lt k2 k1 = false.
Proof.
  revert k2. induction k1 as [|x k1 IH]; intros [|y k2]; simpl; try done.
  destruct (Z.ltb_spec x y), (Z.ltb_spec y x); try done; try lia.
  apply IH.
Qed.

(** "Not smaller" is transitive. *)
Lemma key_le_trans (k1 k2 k3 : list Z) :
  key_lt k2 k1 = false → key_lt k3 k2 = false → key_lt k3 k1 = false.
Proof.
  revert k2 k3.
  induction k1 as [|x k1 IH]; intros [|y k2] [|z k3]; simpl; try done.
  destruct (Z.ltb_spec y x), (Z.ltb_spec x y), (Z.ltb_spec z y),
    (Z.ltb_spec y z), (Z.ltb_spec z x), (Z.ltb_spec x z);
    try done; try lia.
  apply IH.
Qed.

Section SortRules.
Context {R : Type} `{!RuleLike R}.

Lemma sort_insert_perm (x : R) (l : list R) : sort_insert x l ≡ₚ x :: l.
Proof.
  induction l as [|y l IH]; simpl; [done |].
  case_match; [| done]. rewrite IH. apply Permutation_swap.
Qed.

Lemma sort_insert_sorted (x : R) (l : list R) :
  StronglySorted key_le l → StronglySorted key_le (sort_insert x l).
Proof.
  induction 1 as [|y l Hl IH Hy]; simpl.
  - by repeat constructor.
  - destruct (key_lt (build_compare_key y) (build_compare_key x)) eqn:Hyx.
    + constructor; [done |].
      rewrite sort_insert_perm. constructor; [| done].
      by apply key_lt_asym.
    + constructor; [by constructor |]. constructor; [done |].
      eapply Forall_impl; [exact Hy |]. intros z Hz.
      unfold key_le in *. by eapply key_le_trans.
Qed.

(** Rules with the same key keep their order: [x] is put in front of the
    rules that were behind it. *)
Lemma sort_insert_stable (k : list Z) (x : R) (l : list R) :
  filter (λ r, build_compare_key r = k) (sort_insert x l)
  = filter (λ r, build_compare_key r = k) (x :: l).
Proof.
  induction l as [|y l IH]; simpl; [done |].
  destruct (key_lt (build_compare_key y) (build_compare_key x)) eqn:Hyx;
    [| done].
  rewrite (filter_cons _ y), IH, !filter_cons.
  destruct (decide (build_compare_key y = k)) as [Hy|Hy],
    (decide (build_compare_key x = k)) as [Hx|Hx]; try done.
  rewrite Hy, Hx, key_lt_irrefl in Hyx. done.
Qed.

(** [Map.update] leaves each endpoint's rules as a stable sort by
    [build_compare_key]. *)
Lemma sort_by_build_compare_key_spec (l : list R) :
  sort_by_build_compare_key l ≡ₚ l
  ∧ StronglySorted key_le (sort_by_build_compare_key l)
  ∧ ∀ k,
      filter (λ r, build_compare_key r = k) (sort_by_build_compare_key l)
      = filter (λ r, build_compare_key r = k) l.
Proof.
  induction l as [|x l (Hperm & Hsorted & Hstable)]; simpl.
  - by repeat constructor.
  - split; [by rewrite sort_insert_perm, Hperm |].
    split; [by apply sort_insert_sorted |].
    intros k. by rewrite sort_insert_stable, !filter_cons, Hstable.
Qed.

End SortRules.

(** ** Default redirects *)

Section DefaultRedirect.
Context {R M : Type} `{!RuleLike R} `{!MatcherLike M R} `{!Externals}.

(** The loop of [get_default_redirect] stops at [rule] and takes the first
    rule in front of it that passes both tests. *)
Lemma get_default_redirect_scan_spec (m : Map M R) (a : MapAdapter)
    (rule : R) (method : string) (values : gmap string value)
    (query_args : qargs) (rules : list R) :
  get_default_redirect_scan m a rule method values query_args rules
  = match
      List.find
        (λ r, provides_defaults_for r rule
              && suitable_for r values (Some method))
        (rules_before rule rules)
    with
    | Some r => default_redirect_of m a r values query_args
    | None => Ok None
    end.
Proof.
  induction rules as [|r rules IH]; simpl; [done |].
  destruct (rule_id r =? rule_id rule)%nat; [done |]. simpl.
  by destruct (provides_defaults_for r rule
               && suitable_for r values (Some method)).
Qed.

(** What [update] does to an endpoint's rule list. *)
Lemma update_rules_by_endpoint (m : Map M R) (endpoint : string) :
  _rules_by_endpoint (Map_update m) !! endpoint
  = if _remap m
    then sort_by_build_compare_key <$> (_rules_by_endpoint m !! endpoint)
    else _rules_by_endpoint m !! endpoint.
Proof.
  unfold Map_update. destruct (_remap m); simpl; [| done].
  by rewrite lookup_fmap.
Qed.

Lemma update_redirect_defaults (m : Map M R) :
  redirect_defaults (Map_update m) = redirect_defaults m.
Proof. unfold Map_update. by destruct (_remap m). Qed.

(** C3, as the code has it. With [redirect_defaults] on and a rule
    matched, the rules scanned are those in front of the matched rule in
    its endpoint's list as [update] leaves it: sorted by
    [build_compare_key], rules with equal keys in the order they were
    added. The first scanned rule that provides defaults for the matched
    rule and is suitable for the values and the method makes [match]
    raise the redirect to the URL that this rule builds from its defaults
    and the values; if there is none, [match] goes on to [redirect_to]
    and the result. *)
Theorem match_default_redirect (m : Map M R) (a : MapAdapter)
    (path_info method : option string) (return_rule : bool)
    (qa : option qargs) (ws : option bool) (rule : R)
    (rv : gmap string value) (rules : list R) :
  redirect_defaults m = true →
  matcher_query m a path_info method ws = Matched rule rv →
  _rules_by_endpoint (Map_update m) !! endpoint rule = Some rules →
  let m' := Map_update m in
  let method' := match_method a method in
  let query_args := match_query_args a qa in
  let outcome := (MapAdapter_match m a path_info method return_rule qa ws).2 in
  let first_default :=
    List.find
      (λ r, provides_defaults_for r rule && suitable_for r rv (Some method'))
      (rules_before rule rules) in
  (∀ r d domain_part path,
     first_default = Some r →
     defaults r = Some d →
     rule_build r (d ∪ rv) None = Some (domain_part, path) →
     outcome
     = Raise (RequestRedirect
                (MapAdapter_make_redirect_url m' a path (Some query_args)
                   (Some domain_part))))
  ∧ (first_default = None →
     outcome
     = match redirect_to rule with
       | Some target =>
           Raise (RequestRedirect (redirect_to_url a rule rv target))
       | None =>
           Ok (if return_rule then MatchedRule rule
               else MatchedEndpoint (endpoint rule), rv)
       end)
  ∧ (_remap m = true →
     ∃ added,
       _rules_by_endpoint m !! endpoint rule = Some added
       ∧ rules = sort_by_build_compare_key added
       ∧ rules ≡ₚ added
       ∧ StronglySorted key_le rules
       ∧ ∀ k, filter (λ r, build_compare_key r = k) rules
              = filter (λ r, build_compare_key r = k) added).
Proof.
  intros Hrd Hq Hrules m' method' query_args outcome first_default.
  assert (MapAdapter_get_default_redirect m' a rule method' rv query_args
          = match first_default with
            | Some r => default_redirect_of m' a r rv query_args
            | None => Ok None
            end) as Hscan.
  { unfold MapAdapter_get_default_redirect. subst m'.
    rewrite update_redirect_defaults, Hrd, Hrules. simpl.
    apply get_default_redirect_scan_spec. }
  assert (outcome
          = (match_outcome m' a (match_domain_part m' a)
               (path_part (default (MapAdapter.path_info a) path_info))
               method' return_rule query_args (Matched rule rv)).2) as Hout.
  { subst outcome. unfold MapAdapter_match. by rewrite Hq. }
  unfold match_outcome in Hout. fold m' in Hout.
  replace (redirect_defaults m') with true in Hout
    by (subst m'; by rewrite update_redirect_defaults).
  rewrite Hscan in Hout. split; [| split].
  - intros r d dp path Hfirst Hd Hb. rewrite Hfirst in Hout.
    unfold default_redirect_of in Hout. by rewrite Hd, Hb in Hout.
  - intros Hfirst. rewrite Hfirst in Hout. rewrite Hout.
    destruct (redirect_to rule); [done |]. by destruct return_rule.
  - intros Hremap. subst m'.
    rewrite update_rules_by_endpoint, Hremap in Hrules.
    destruct (_rules_by_endpoint m !! endpoint rule) as [added|] eqn:Hadded;
      [| done].
    injection Hrules as <-. exists added.
    destruct (sort_by_build_compare_key_spec added) as (? & ? & ?).
    done.
Qed.

End DefaultRedirect.

Lemma match_default_redirect_witness :
  (MapAdapter_match foo_map http_adapter (Some "/foo/1") None false None
     None).2
  = Raise (RequestRedirect "http://example.com/foo/")
  ∧ (MapAdapter_match foo_map http_adapter (Some "/foo/2") None false None
       None).2
    = Ok (MatchedEndpoint "foo", {["page" := VStr "2"]}).
Proof.
  split.
  - refine (proj1 (match_default_redirect foo_map http_adapter
                     (Some "/foo/1") None false None None page_rule
                     {["page" := VStr "1"]} [first_page_rule; page_rule]
                     _ _ _)
              first_page_rule {["page" := VStr "1"]} "" "/foo/" _ _ _);
      vm_compute; reflexivity.
  - refine (proj1 (proj2 (match_default_redirect foo_map http_adapter
                            (Some "/foo/2") None false None None page_rule
                            {["page" := VStr "2"]}
                            [first_page_rule; page_rule] _ _ _)) _);
      vm_compute; reflexivity.
Defined.

(** C3 fails as stated: [page_rule] was added first, so no rule was
    registered before it, and still matching it redirects, to the rule
    added after it, which [update] has sorted in front. *)
Lemma match_default_redirect_not_by_registration :
  List.map s_id <$> (_rules_by_endpoint foo_map !! "foo") = Some [1; 2]
  ∧ List.map s_id <$> (_rules_by_endpoint (Map_update foo_map) !! "foo")
    = Some [2; 1]
  ∧ (∃ rv,
       matcher_query foo_map http_adapter (Some "/foo/1") None None
       = Matched page_rule rv)
  ∧ (MapAdapter_match foo_map http_adapter (Some "/foo/1") None false None
       None).2
    = Raise (RequestRedirect "http://example.com/foo/").
Proof.
  split; [vm_compute; reflexivity |].
  split; [vm_compute; reflexivity |].
  split; [eexists; vm_compute; reflexivity |].
  vm_compute; reflexivity.
Qed.

Lemma alias_redirect_assertion_holds_witness :
  (MapAdapter_match alias_map http_adapter (Some "/home") None false None
     None).2
  = Raise (RequestRedirect "http://example.com/").
Proof.
  etrans.
  - refine (proj2 (alias_redirect_assertion_holds alias_map http_adapter
                     (Some "/home") None false None None ∅ "index" _ _));
      vm_compute; reflexivity.
  - vm_compute. reflexivity.
Defined.

(** The condition on the domain part is needed: with a slash in it the
    compared strings can coincide. *)
Example alias_assertion_with_slash_in_domain :
  (MapAdapter_match alias_map slash_domain_adapter (Some "/home") None false
     None None).2
  = Raise (AssertionError
             "detected invalid alias setting. No canonical URL found").
Proof. vm_compute. reflexivity. Qed.

(** ** Matching and building back *)

Lemma length_append (s t : string) :
  String.length (s +:+ t) = String.length s + String.length t.
Proof. induction s as [|c s IH]; simpl; [done | by rewrite IH]. Qed.

Section PatternFacts.
Context `{!Externals}.






End PatternFacts.

Section RoundTrip.
Context {R M : Type} `{!RuleLike R} `{!MatcherLike M R} `{!Externals}.

Lemma update_idempotent (m : Map M R) :
  Map_update (Map_update m) = Map_update m.
Proof.
  unfold Map_update. by destruct (_remap m) eqn:Hr; simpl; rewrite ?Hr.
Qed.





End RoundTrip.

Section RuleRoundTrip.
Context {M : Type} `{!Externals} `{!MatcherLike M PatternRule}.


End RuleRoundTrip.





(** The condition on the defaults is needed: [/downloads/42] is matched
    with [id = 42], which the default [id = 7] of the rule contradicts,
    so that [build] finds no rule. *)
Example conflicting_defaults_no_build :
  (MapAdapter_match seven_map http_adapter (Some "/downloads/42") None false
     None None).2
  = Ok (MatchedEndpoint "downloads.show", {["id" := VInt 42]})
  ∧ (MapAdapter_build seven_map http_adapter "downloads.show"
       (PlainDict {["id" := VInt 42]}) None false true None).2
    = Raise (BuildError "downloads.show" {["id" := VInt 42]} None).
Proof. split; vm_compute; reflexivity. Qed.

(** * More properties *)

(** ** Adding rules and updating *)

Section MapFacts.
Context {R M : Type} `{!RuleLike R} `{!MatcherLike M R} `{!Externals}.

Lemma add_rule_lookup (m : Map M R) (rule : R) (ep : string) :
  _rules_by_endpoint (Map_add_rule m rule) !! ep
  = if decide (endpoint rule = ep)
    then Some (default [] (_rules_by_endpoint m !! ep) ++ [rule])
    else _rules_by_endpoint m !! ep.
Proof.
  unfold Map_add_rule. simpl. case_decide as Hep.
  - subst ep. by rewrite lookup_insert_eq.
  - by rewrite lookup_insert_ne.
Qed.

Lemma add_rules_lookup (rules : list R) (m : Map M R) (ep : string) :
  _rules_by_endpoint (foldl Map_add_rule m rules) !! ep
  = match
      _rules_by_endpoint m !! ep, filter (λ r, endpoint r = ep) rules
    with
    | None, [] => None
    | old, new => Some (default [] old ++ new)
    end.
Proof.
  revert m. induction rules as [|rule rules IH]; intros m.
  - simpl. destruct (_rules_by_endpoint m !! ep); simpl; [| done].
    by rewrite app_nil_r.
  - cbn [foldl]. rewrite IH, add_rule_lookup, filter_cons.
    destruct (decide (endpoint rule = ep)) as [Hep|Hep].
    + destruct (_rules_by_endpoint m !! ep); simpl; [| done].
      by rewrite <- app_assoc.
    + done.
Qed.

Lemma add_rules_flags (rules : list R) (m : Map M R) :
  default_subdomain (foldl Map_add_rule m rules) = default_subdomain m
  ∧ strict_slashes (foldl Map_add_rule m rules) = strict_slashes m
  ∧ redirect_defaults (foldl Map_add_rule m rules) = redirect_defaults m
  ∧ host_matching (foldl Map_add_rule m rules) = host_matching m.
Proof.
  revert m. induction rules as [|rule rules IH]; intros m; [done |].
  cbn [foldl]. destruct (IH (Map_add_rule m rule)) as (-> & -> & -> & ->).
  done.
Qed.

Lemma add_lookup (m : Map M R) (rules : list R) (ep : string) :
  _rules_by_endpoint (Map_add m rules) !! ep
  = match
      _rules_by_endpoint m !! ep, filter (λ r, endpoint r = ep) rules
    with
    | None, [] => None
    | old, new => Some (default [] old ++ new)
    end.
Proof. unfold Map_add. cbn. apply add_rules_lookup. Qed.

(** X1. [add] marks the map for a remap and appends the new rules to the
    lists of their endpoints, in the order given; the lists of other
    endpoints, the rules already there and the policy flags stay as they
    are. *)
Theorem add_appends_by_endpoint (m : Map M R) (rules : list R) (ep : string) :
  let m' := Map_add m rules in
  _remap m' = true
  ∧ _rules_by_endpoint m' !! ep
    = match
        _rules_by_endpoint m !! ep, filter (λ r, endpoint r = ep) rules
      with
      | None, [] => None
      | old, new => Some (default [] old ++ new)
      end
  ∧ default_subdomain m' = default_subdomain m
  ∧ strict_slashes m' = strict_slashes m
  ∧ redirect_defaults m' = redirect_defaults m
  ∧ host_matching m' = host_matching m.
Proof.
  intros m'. subst m'. unfold Map_add. cbn.
  split; [done |]. split; [apply add_rules_lookup |].
  apply add_rules_flags.
Qed.

(** X2. [update] leaves a clean map alone and cleans a map marked for a
    remap; a second [update] changes nothing. It never touches the policy
    flags or the set of endpoints. *)
Theorem update_cleans_once (m : Map M R) :
  _remap (Map_update m) = false
  ∧ (_remap m = false → Map_update m = m)
  ∧ Map_update (Map_update m) = Map_update m
  ∧ dom (_rules_by_endpoint (Map_update m)) = dom (_rules_by_endpoint m)
  ∧ default_subdomain (Map_update m) = default_subdomain m
  ∧ strict_slashes (Map_update m) = strict_slashes m
  ∧ redirect_defaults (Map_update m) = redirect_defaults m
  ∧ host_matching (Map_update m) = host_matching m.
Proof.
  unfold Map_update. destruct (_remap m) eqn:Hr; simpl; rewrite ?Hr.
  - repeat split; try done. by rewrite dom_fmap_L.
  - done.
Qed.

(** X3. On a map marked for a remap, [update] replaces each endpoint's
    rule list by a stable sort of it: the same rules, no rule in front of
    one with a smaller [build_compare_key], and rules with equal keys in
    the order they were added. *)
Theorem update_sorts_each_endpoint (m : Map M R) (ep : string)
    (added : list R) :
  _remap m = true →
  _rules_by_endpoint m !! ep = Some added →
  ∃ rules,
    _rules_by_endpoint (Map_update m) !! ep = Some rules
    ∧ rules ≡ₚ added
    ∧ StronglySorted key_le rules
    ∧ ∀ k, filter (λ r, build_compare_key r = k) rules
           = filter (λ r, build_compare_key r = k) added.
Proof.
  intros Hr Hadded. exists (sort_by_build_compare_key added).
  rewrite update_rules_by_endpoint, Hr, Hadded.
  split; [done |]. apply sort_by_build_compare_key_spec.
Qed.

(** The rules of an endpoint after [update] are those before it. *)
Lemma update_rules_elem (m : Map M R) (ep : string) :
  match _rules_by_endpoint m !! ep with
  | Some added =>
      ∃ rules,
        _rules_by_endpoint (Map_update m) !! ep = Some rules
        ∧ rules ≡ₚ added
  | None => _rules_by_endpoint (Map_update m) !! ep = None
  end.
Proof.
  rewrite update_rules_by_endpoint.
  destruct (_remap m), (_rules_by_endpoint m !! ep) as [added|]; simpl;
    try done; eexists; split; try done.
  apply sort_by_build_compare_key_spec.
Qed.

(** X4. A rule that was added can be built: if the rule is a candidate
    for the values and the method, [build] for its endpoint on the map
    after [add] returns a URL, whatever other rules the map holds. *)
Theorem build_after_add (m : Map M R) (a : MapAdapter) (rule : R)
    (values : build_values) (method : option string)
    (force_external append_unknown : bool) (url_scheme : option string)
    (rv : string * string * bool) :
  build_candidate (normalize_values values) method append_unknown rule
  = Some rv →
  ∃ url,
    (MapAdapter_build (Map_add m [rule]) a (endpoint rule) values method
       force_external append_unknown url_scheme).2 = Ok url.
Proof.
  intros Hcand.
  pose proof (add_lookup m [rule] (endpoint rule)) as Hadded.
  rewrite filter_cons, decide_True in Hadded by done.
  pose proof (update_rules_elem (Map_add m [rule]) (endpoint rule)) as Hup.
  assert (∃ added, _rules_by_endpoint (Map_add m [rule]) !! endpoint rule
                   = Some added ∧ rule ∈ added) as (added & Hl & Hin).
  { rewrite Hadded.
    destruct (_rules_by_endpoint m !! endpoint rule);
      eexists; (split; [done | set_solver]). }
  rewrite Hl in Hup. destruct Hup as (rules & Hrules & Hperm).
  rewrite <- Hperm in Hin.
  assert (build_candidates (normalize_values values) method append_unknown
            rules ≠ []) as Hne.
  { intros Hnil.
    assert (rv ∈ build_candidates (normalize_values values) method
                   append_unknown rules) as Hrv
      by (apply list_elem_of_omap; eauto).
    rewrite Hnil in Hrv. by apply elem_of_nil in Hrv. }
  destruct (MapAdapter__partial_build (Map_update (Map_add m [rule])) a
              (endpoint rule) (normalize_values values) method append_unknown)
    as [sel|] eqn:Hsel.
  { by apply (build_selected_ok _ _ _ _ _ force_external _ url_scheme sel). }
  exfalso. unfold MapAdapter__partial_build in Hsel.
  rewrite Hrules in Hsel. cbn [default] in Hsel.
  rewrite !partial_build_scan_select in Hsel.
  destruct method as [meth|].
  - by apply select_candidate_None in Hsel.
  - destruct (select_candidate _ _ (build_candidates _ (Some _) _ _));
      [done |].
    by apply select_candidate_None in Hsel.
Qed.

End MapFacts.

Lemma update_sorts_each_endpoint_witness :
  ∃ rules,
    _rules_by_endpoint (Map_update foo_map) !! "foo" = Some rules
    ∧ rules ≡ₚ [page_rule; first_page_rule]
    ∧ StronglySorted key_le rules
    ∧ ∀ k, filter (λ r, build_compare_key r = k) rules
           = filter (λ r, build_compare_key r = k)
               [page_rule; first_page_rule].
Proof.
  apply (update_sorts_each_endpoint foo_map "foo"
           [page_rule; first_page_rule]);
    vm_compute; reflexivity.
Defined.

Lemma build_after_add_witness :
  ∃ url,
    (MapAdapter_build (Map_add foo_map [downloads_show_rule]) http_adapter
       "downloads/show" (PlainDict {["id" := VStr "7"]}) None false true
       None).2 = Ok url.
Proof.
  refine (build_after_add foo_map http_adapter downloads_show_rule
            (PlainDict {["id" := VStr "7"]}) None false true None
            ("", "/downloads/7", false) _).
  vm_compute. reflexivity.
Defined.

(** ** Asking a map about an endpoint *)

Section EndpointExpecting.
Context {R M : Type} `{!RuleLike R} `{!MatcherLike M R} `{!Externals}.
Context `{!RuleArguments R}.

Lemma is_endpoint_expecting_scan_true (arguments : gset string)
    (rules : list R) :
  is_endpoint_expecting_scan arguments rules = true
  ↔ ∃ rule, rule ∈ rules ∧ arguments ⊆ rule_arguments rule.
Proof.
  induction rules as [|rule rules IH]; simpl.
  - split; [done | intros (? & []%elem_of_nil & _)].
  - case_bool_decide as Hsub.
    + split; [| done]. intros _. exists rule. split; [left | done].
    + rewrite IH. split.
      * intros (r & Hin & Hr). exists r. split; [by right | done].
      * intros (r & [->|Hin]%elem_of_cons & Hr); [done | eauto].
Qed.

(** X5. [is_endpoint_expecting] raises [KeyError] for an endpoint no rule
    was added for. Otherwise it is true exactly when one of the
    endpoint's rules accepts every argument asked about; the order the
    rules are in plays no part. *)
Theorem is_endpoint_expecting_spec (m : Map M R) (ep : string)
    (arguments : list string) :
  let out := (Map_is_endpoint_expecting m ep arguments).2 in
  match _rules_by_endpoint m !! ep with
  | None => out = Raise (KeyError ep)
  | Some added =>
      ∃ b, out = Ok b
           ∧ (b = true
              ↔ ∃ rule, rule ∈ added
                        ∧ ∀ x, x ∈ arguments → x ∈ rule_arguments rule)
  end.
Proof.
  intros out. subst out. unfold Map_is_endpoint_expecting.
  pose proof (update_rules_elem m ep) as Hup.
  destruct (_rules_by_endpoint m !! ep) as [added|].
  - destruct Hup as (rules & -> & Hperm). eexists. split; [done |].
    rewrite is_endpoint_expecting_scan_true.
    split; intros (rule & Hin & Hsub); exists rule.
    + rewrite <- Hperm. split; [done |]. intros x Hx. apply Hsub.
      by apply elem_of_list_to_set.
    + rewrite Hperm. split; [done |]. intros x Hx%elem_of_list_to_set.
      by apply Hsub.
  - by rewrite Hup.
Qed.

End EndpointExpecting.

(** ** The adapter and its URLs *)

Lemma endswith_app_char (c : ascii) (s : string) :
  Str.endswith c (s +:+ String c "") = true.
Proof.
  induction s as [|a s IH]; simpl; [apply Ascii.eqb_refl |].
  destruct s; simpl in *; [apply Ascii.eqb_refl | done].
Qed.

Lemma lstrip_replicate (c : ascii) (n : nat) (s : string) :
  Str.lstrip c (Str.replicate n c +:+ s) = Str.lstrip c s.
Proof.
  induction n as [|n IH]; [done |].
  simpl. by rewrite Ascii.eqb_refl.
Qed.

Section AdapterFacts.
Context {R M : Type} `{!RuleLike R} `{!MatcherLike M R} `{!Externals}.

(** X6. The script name of an adapter always ends with a slash: one that
    does is kept, any other gets one appended. The websocket flag is set
    exactly for the schemes [ws] and [wss]. This holds for every adapter
    that [bind] returns. *)
Theorem adapter_init_invariants (server_name script_name : string)
    (subdomain : option string)
    (url_scheme path_info default_method : string) (qa : option qargs) :
  let a :=
    MapAdapter_init server_name script_name subdomain url_scheme path_info
      default_method qa in
  Str.endswith "/" (MapAdapter.script_name a) = true
  ∧ MapAdapter.script_name a
    = (if Str.endswith "/" script_name then script_name
       else script_name +:+ "/")
  ∧ (MapAdapter.websocket a = true ↔ url_scheme = "ws" ∨ url_scheme = "wss")
  ∧ ∀ (m : Map M R) server_name' script_name' subdomain' path_info' a',
      Map_bind m server_name' script_name' subdomain' url_scheme
        default_method path_info' qa = Ok a' →
      Str.endswith "/" (MapAdapter.script_name a') = true
      ∧ (MapAdapter.websocket a' = true
         ↔ url_scheme = "ws" ∨ url_scheme = "wss").
Proof.
  assert (∀ s, Str.endswith "/"
                 (if negb (Str.endswith "/" s) then s +:+ "/" else s)
               = true) as Hslash.
  { intros s. destruct (Str.endswith "/" s) eqn:Hs; simpl; [done |].
    apply endswith_app_char. }
  assert ((String.eqb url_scheme "ws" || String.eqb url_scheme "wss") = true
          ↔ url_scheme = "ws" ∨ url_scheme = "wss") as Hws.
  { rewrite orb_true_iff, !String.eqb_eq. done. }
  intros a. subst a. unfold MapAdapter_init. cbn.
  split; [apply Hslash |]. split; [by destruct (Str.endswith "/" _) |].
  split; [exact Hws |].
  intros m sn sc sub pi a'. unfold Map_bind.
  destruct (if host_matching m then _ else _) as [sub'|]; [| done].
  destruct (Str.partition ":" (Str.lower sn)) as [[host sep] port].
  destruct (idna_encode host); [| done].
  intros [= <-]. unfold MapAdapter_init. cbn. split; [apply Hslash | exact Hws].
Qed.

(** X7. When the script name ends with exactly one slash, the URL that
    [build] returns with [force_external] is the relative URL with a
    scheme and host in front; and without [force_external] the result is
    either that relative URL or the very URL forced building gives. *)
Theorem build_external_extends_relative (m : Map M R) (a : MapAdapter)
    (endpoint : string) (values : build_values) (method : option string)
    (append_unknown : bool) (url_scheme : option string)
    (domain_part path : string) (websocket : bool) :
  MapAdapter__partial_build (Map_update m) a endpoint
    (normalize_values values) method append_unknown
  = Some (domain_part, path, websocket) →
  Str.rstrip "/" (MapAdapter.script_name a)
  = Str.drop_last (MapAdapter.script_name a) →
  let relative :=
    Str.rstrip "/" (MapAdapter.script_name a) +:+ "/" +:+ Str.lstrip "/" path in
  let forced :=
    (MapAdapter_build m a endpoint values method true append_unknown
       url_scheme).2 in
  let unforced :=
    (MapAdapter_build m a endpoint values method false append_unknown
       url_scheme).2 in
  (∃ scheme,
     forced
     = Ok ((scheme +:+ "//"
              +:+ MapAdapter_get_host (Map_update m) a (Some domain_part))
             +:+ relative))
  ∧ (unforced = Ok relative ∨ unforced = forced).
Proof.
  intros Hsel Hscript relative forced unforced. subst forced unforced.
  rewrite !(build_selected _ _ _ _ _ _ _ _ _ _ _ Hsel). cbv zeta.
  set (us := default (MapAdapter.url_scheme a) url_scheme).
  assert ((build_scheme websocket true us).1 = true) as Htrue.
  { unfold build_scheme. destruct websocket; [done |]. by case_match. }
  assert ((build_scheme websocket false us).2
          = (build_scheme websocket true us).2) as Hsame.
  { unfold build_scheme. destruct websocket; [done |]. by case_match. }
  rewrite Htrue, Hsame. cbn [negb andb]. rewrite <- Hscript. fold relative.
  set (scheme := if Str.truthy _ then _ else "").
  split.
  - exists scheme. by rewrite 2!append_assoc.
  - case_match; [by left | by right].
Qed.

(** X8. A redirect URL does not depend on how many slashes the path
    starts with. *)
Theorem make_redirect_url_leading_slashes (m : Map M R) (a : MapAdapter)
    (n : nat) (path_info : string) (qa : option qargs)
    (domain_part : option string) :
  MapAdapter_make_redirect_url m a (Str.replicate n "/" +:+ path_info) qa
    domain_part
  = MapAdapter_make_redirect_url m a path_info qa domain_part.
Proof. unfold MapAdapter_make_redirect_url. by rewrite lstrip_replicate. Qed.

End AdapterFacts.

Lemma build_external_extends_relative_witness :
  (∃ scheme,
     (MapAdapter_build ws_map https_app_adapter "post" NoValues None true
        true None).2
     = Ok ((scheme +:+ "//" +:+ "example.com") +:+ "/app/ws"))
  ∧ ((MapAdapter_build ws_map https_app_adapter "post" NoValues None false
        true None).2
     = Ok "/app/ws"
     ∨ (MapAdapter_build ws_map https_app_adapter "post" NoValues None false
          true None).2
       = (MapAdapter_build ws_map https_app_adapter "post" NoValues None
            true true None).2).
Proof.
  refine (build_external_extends_relative ws_map https_app_adapter "post"
            NoValues None true None "" "/ws" false _ _);
    vm_compute; reflexivity.
Defined.

(** ** More on [match] *)

Section MatchFacts.
Context {R M : Type} `{!RuleLike R} `{!MatcherLike M R} `{!Externals}.

Lemma build_map (m : Map M R) (a : MapAdapter) (endpoint : string)
    (values : build_values) (method : option string)
    (force_external append_unknown : bool) (url_scheme : option string) :
  (MapAdapter_build m a endpoint values method force_external append_unknown
     url_scheme).1 = Map_update m.
Proof.
  unfold MapAdapter_build.
  destruct (MapAdapter__partial_build _ _ _ _ _ _) as [[[dp path] w]|];
    [| done].
  destruct (build_scheme _ _ _) as [fe us]. by case_match.
Qed.

Lemma match_outcome_map (m : Map M R) (a : MapAdapter)
    (domain_part path method : string) (return_rule : bool)
    (query_args : qargs) (outcome : matcher_result R) :
  (match_outcome (Map_update m) a domain_part path method return_rule
     query_args outcome).1 = Map_update m.
Proof.
  destruct outcome as [rule rv|p|mv ep|hmf wm]; simpl.
  - destruct (if redirect_defaults _ then _ else _) as [[url|]|e];
      try done.
    destruct (redirect_to rule); [done |]. by destruct return_rule.
  - done.
  - unfold MapAdapter_make_alias_redirect_url.
    pose proof (build_map (Map_update m) a ep (PlainDict mv) (Some method)
                  true false None) as Hmap.
    destruct (MapAdapter_build _ _ _ _ _ _ _ _) as [m2 [url|e]];
      simpl in Hmap; subst m2; rewrite update_idempotent; [| done].
    by destruct (String.eqb _ _).
  - case_match; [done |]. by destruct wm.
Qed.

(** X9. [match] and [build] hand back the map as [update] leaves it, so
    clean; and on a map that is already updated they do what they do on
    the map before the update. *)
Theorem match_build_update (m : Map M R) (a : MapAdapter)
    (path_info method : option string) (return_rule : bool)
    (qa : option qargs) (ws : option bool) (endpoint : string)
    (values : build_values) (force_external append_unknown : bool)
    (url_scheme : option string) :
  (MapAdapter_match m a path_info method return_rule qa ws).1 = Map_update m
  ∧ (MapAdapter_build m a endpoint values method force_external
       append_unknown url_scheme).1 = Map_update m
  ∧ MapAdapter_match (Map_update m) a path_info method return_rule qa ws
    = MapAdapter_match m a path_info method return_rule qa ws
  ∧ MapAdapter_build (Map_update m) a endpoint values method force_external
      append_unknown url_scheme
    = MapAdapter_build m a endpoint values method force_external
        append_unknown url_scheme.
Proof.
  split; [apply match_outcome_map |]. split; [apply build_map |]. split.
  - unfold MapAdapter_match, matcher_query. by rewrite update_idempotent.
  - unfold MapAdapter_build. by rewrite update_idempotent.
Qed.

(** X10. [return_rule] only chooses between the rule and its endpoint in
    the result: the values, the exception raised and the map handed back
    are the same either way. *)
Theorem match_return_rule (m : Map M R) (a : MapAdapter)
    (path_info method : option string) (qa : option qargs)
    (ws : option bool) :
  let with_rule := MapAdapter_match m a path_info method true qa ws in
  let with_endpoint := MapAdapter_match m a path_info method false qa ws in
  with_rule.1 = with_endpoint.1
  ∧ match with_rule.2 with
    | Ok (x, values) =>
        ∃ rule,
          x = MatchedRule rule
          ∧ with_endpoint.2 = Ok (MatchedEndpoint (endpoint rule), values)
    | Raise e => with_endpoint.2 = Raise e
    end.
Proof.
  intros with_rule with_endpoint. subst with_rule with_endpoint.
  split.
  - unfold MapAdapter_match. by rewrite !match_outcome_map.
  - unfold MapAdapter_match.
    destruct (matcher_query m a path_info method ws)
      as [rule rv|p|mv ep|hmf wm]; simpl.
    + destruct (if redirect_defaults _ then _ else _) as [[url|]|e];
        try done.
      destruct (redirect_to rule); [done |]. simpl. by exists rule.
    + done.
    + by destruct (MapAdapter_make_alias_redirect_url _ _ _ _ _ _ _)
        as [m2 [url|e]].
    + destruct (negb _); [done |]. by destruct wm.
Qed.

(** X11. A rule with [redirect_to] is never the result of [match]: when
    the matcher finds it, [match] raises, and with default redirects off
    what it raises is the redirect to the rule's target. *)
Theorem match_redirect_to_raises (m : Map M R) (a : MapAdapter)
    (path_info method : option string) (return_rule : bool)
    (qa : option qargs) (ws : option bool) (rule : R)
    (rv : gmap string value) (target : redirect_target) :
  matcher_query m a path_info method ws = Matched rule rv →
  redirect_to rule = Some target →
  let outcome := (MapAdapter_match m a path_info method return_rule qa ws).2 in
  (∃ e, outcome = Raise e)
  ∧ (redirect_defaults m = false →
     outcome = Raise (RequestRedirect (redirect_to_url a rule rv target))).
Proof.
  intros Hq Htarget outcome. subst outcome.
  unfold MapAdapter_match. rewrite Hq. simpl.
  rewrite update_redirect_defaults, Htarget.
  destruct (redirect_defaults m).
  - split; [| done].
    destruct (MapAdapter_get_default_redirect _ _ _ _ _ _) as [[url|]|e];
      simpl; eauto.
  - simpl. eauto.
Qed.

(** X12. The rule at the head of its endpoint's list is never redirected
    to another rule's defaults: [match] goes straight on to [redirect_to]
    and the result. *)
Theorem match_first_rule_no_default_redirect (m : Map M R) (a : MapAdapter)
    (path_info method : option string) (return_rule : bool)
    (qa : option qargs) (ws : option bool) (rule first : R)
    (rv : gmap string value) (rest : list R) :
  matcher_query m a path_info method ws = Matched rule rv →
  _rules_by_endpoint (Map_update m) !! endpoint rule = Some (first :: rest) →
  rule_id first = rule_id rule →
  (MapAdapter_match m a path_info method return_rule qa ws).2
  = match redirect_to rule with
    | Some target =>
        Raise (RequestRedirect (redirect_to_url a rule rv target))
    | None =>
        Ok (if return_rule then MatchedRule rule
            else MatchedEndpoint (endpoint rule), rv)
    end.
Proof.
  intros Hq Hrules Hid. unfold MapAdapter_match. rewrite Hq. simpl.
  unfold MapAdapter_get_default_redirect. rewrite Hrules. simpl.
  rewrite Hid, Nat.eqb_refl.
  destruct (redirect_defaults (Map_update m)); simpl;
    destruct (redirect_to rule); try done; by destruct return_rule.
Qed.

End MatchFacts.

Lemma match_redirect_to_raises_witness :
  (MapAdapter_match old_map http_adapter (Some "/old") None false None
     None).2
  = Raise (RequestRedirect "http://example.com/new/").
Proof.
  refine (proj2 (match_redirect_to_raises old_map http_adapter (Some "/old")
                   None false None None old_rule ∅ (RedirectTemplate "new/")
                   _ _) _);
    vm_compute; reflexivity.
Defined.

Lemma match_first_rule_no_default_redirect_witness :
  (MapAdapter_match foo_map http_adapter (Some "/foo/") None false None
     None).2
  = Ok (MatchedEndpoint "foo", {["page" := VStr "1"]}).
Proof.
  refine (match_first_rule_no_default_redirect foo_map http_adapter
            (Some "/foo/") None false None None first_page_rule
            first_page_rule {["page" := VStr "1"]} [page_rule] _ _ _);
    vm_compute; reflexivity.
Defined.

(** ** [test], [allowed_methods] and [dispatch] *)

Section Probes.
Context {R M : Type} `{!RuleLike R} `{!MatcherLike M R} `{!Externals}.

(** What [match] raises when the matcher has no rule or asks for another
    path. *)
Lemma match_no_rule (m : Map M R) (a : MapAdapter)
    (path_info method : option string) (return_rule : bool)
    (qa : option qargs) (ws : option bool) :
  match matcher_query m a path_info method ws with
  | NoMatch have_match_for websocket_mismatch =>
      (MapAdapter_match m a path_info method return_rule qa ws).2
      = if bool_decide (have_match_for = ∅) then
          if websocket_mismatch then Raise WebsocketMismatch
          else Raise NotFound
        else Raise (MethodNotAllowed (elements have_match_for))
  | RequestPath _ =>
      ∃ url,
        (MapAdapter_match m a path_info method return_rule qa ws).2
        = Raise (RequestRedirect url)
  | _ => True
  end.
Proof.
  unfold MapAdapter_match.
  destruct (matcher_query m a path_info method ws) as [| |mv ep|hmf wm];
    simpl; eauto.
  destruct (bool_decide (hmf = ∅)); simpl; [by destruct wm | done].
Qed.

(** Without [return_rule] the first component of the result is an
    endpoint. *)
Lemma match_result_endpoint (m : Map M R) (a : MapAdapter)
    (path_info method : option string) (qa : option qargs)
    (ws : option bool) (x : matched R) (args : gmap string value) :
  (MapAdapter_match m a path_info method false qa ws).2 = Ok (x, args) →
  ∃ ep, x = MatchedEndpoint ep.
Proof.
  unfold MapAdapter_match.
  destruct (matcher_query m a path_info method ws)
    as [rule rv|p|mv ep|hmf wm]; simpl.
  - destruct (if redirect_defaults _ then _ else _) as [[url|]|e];
      try done.
    destruct (redirect_to rule); [done |]. intros [= <- _]. eauto.
  - done.
  - by destruct (MapAdapter_make_alias_redirect_url _ _ _ _ _ _ _)
      as [m2 [url|e]].
  - destruct (negb _); [done |]. by destruct wm.
Qed.

(** X14. [test] is false when the matcher has no rule for the request,
    whether for the path, the method or the transport, and true when the
    matcher asks for a corrected path; a rule found with default
    redirects off makes it true as well. It never raises an
    [HTTPException]. *)
Theorem test_spec (m : Map M R) (a : MapAdapter)
    (path_info method : option string) :
  let tested := (MapAdapter_test m a path_info method).2 in
  match matcher_query m a path_info method None with
  | NoMatch _ _ => tested = Ok false
  | RequestPath _ => tested = Ok true
  | Matched _ _ => redirect_defaults m = false → tested = Ok true
  | RequestAliasRedirect _ _ => True
  end
  ∧ ∀ e, tested = Raise e → is_HTTPException e = false.
Proof.
  intros tested. subst tested. unfold MapAdapter_test.
  pose proof (match_no_rule m a path_info method false None None) as Hno.
  split.
  - destruct (matcher_query m a path_info method None)
      as [rule rv|p|mv ep|hmf wm] eqn:Hq.
    + intros Hrd. unfold MapAdapter_match. rewrite Hq. simpl.
      rewrite update_redirect_defaults, Hrd.
      by destruct (redirect_to rule).
    + destruct Hno as [url Hurl].
      destruct (MapAdapter_match _ _ _ _ _ _ _) as [m2 r].
      simpl in Hurl. by subst r.
    + done.
    + destruct (MapAdapter_match _ _ _ _ _ _ _) as [m2 r].
      simpl in Hno. subst r.
      destruct (bool_decide (hmf = ∅)); [by destruct wm | done].
  - intros e.
    destruct (MapAdapter_match _ _ _ _ _ _ _) as [m2 [x|e']]; [done |].
    destruct e'; simpl; try done; by intros [= <-].
Qed.

(** X15. [allowed_methods] asks the matcher with the method ["--"] and
    returns the methods the matcher found rules for, none when it found
    no rule for the path at all; a corrected path gives no methods
    either. It never raises an [HTTPException]. *)
Theorem allowed_methods_spec (m : Map M R) (a : MapAdapter)
    (path_info : option string) :
  let allowed := (MapAdapter_allowed_methods m a path_info).2 in
  let asked := matcher_query m a path_info (Some "--") None in
  asked
  = matcher_match (_matcher (Map_update m))
      (match_domain_part (Map_update m) a)
      (path_part (default (MapAdapter.path_info a) path_info)) "--"
      (MapAdapter.websocket a)
  ∧ match asked with
    | NoMatch have_match_for _ => allowed = Ok (elements have_match_for)
    | RequestPath _ => allowed = Ok []
    | _ => True
    end
  ∧ ∀ e, allowed = Raise e → is_HTTPException e = false.
Proof.
  intros allowed asked. subst allowed asked.
  unfold MapAdapter_allowed_methods.
  pose proof (match_no_rule m a path_info (Some "--") false None None) as Hno.
  split; [done |]. split.
  - destruct (matcher_query m a path_info (Some "--") None)
      as [rule rv|p|mv ep|hmf wm] eqn:Hq; try done.
    + destruct Hno as [url Hurl].
      destruct (MapAdapter_match _ _ _ _ _ _ _) as [m2 r].
      simpl in Hurl. by subst r.
    + destruct (MapAdapter_match _ _ _ _ _ _ _) as [m2 r].
      simpl in Hno. subst r. case_bool_decide as Hempty; [| done].
      subst hmf. rewrite elements_empty. by destruct wm.
  - intros e.
    destruct (MapAdapter_match _ _ _ _ _ _ _) as [m2 [x|e']]; [done |].
    destruct e'; simpl; try done; by intros [= <-].
Qed.

(** X16. [dispatch] calls the view with the endpoint and values that
    [match] returns and hands back its response. A redirect raised by
    [match] is handed back as the response instead of being raised;
    any other failure of [match] does not reach the view. With
    [catch_http_exceptions] no [HTTPException] is raised, neither one of
    [match] nor one of the view: it is handed back. *)
Theorem dispatch_spec {W : Type} (m : Map M R) (a : MapAdapter)
    (view_func : string -> gmap string value -> result W)
    (path_info method : option string) (catch : bool) :
  let dispatched :=
    (MapAdapter_dispatch m a view_func path_info method catch).2 in
  match (MapAdapter_match m a path_info method false None None).2 with
  | Ok (x, args) =>
      ∃ rule_endpoint,
        x = MatchedEndpoint rule_endpoint
        ∧ match view_func rule_endpoint args with
          | Ok response => dispatched = Ok (inl response)
          | Raise e =>
              dispatched
              = if is_HTTPException e && catch then Ok (inr e) else Raise e
          end
  | Raise (RequestRedirect new_url) =>
      dispatched = Ok (inr (RequestRedirect new_url))
  | Raise e =>
      dispatched
      = if is_HTTPException e && catch then Ok (inr e) else Raise e
  end
  ∧ (catch = true → ∀ e, dispatched = Raise e → is_HTTPException e = false).
Proof.
  intros dispatched. subst dispatched. unfold MapAdapter_dispatch.
  pose proof (match_result_endpoint m a path_info method None None) as Hep.
  destruct (MapAdapter_match m a path_info method false None None)
    as [m2 [[x args]|e]] eqn:Hm; cbn [snd] in *.
  - destruct (Hep x args eq_refl) as [ep ->].
    split.
    + exists ep. split; [done |]. simpl.
      destruct (view_func ep args) as [w|e]; [done |].
      by destruct (is_HTTPException e && catch).
    + intros -> e. simpl. destruct (view_func ep args) as [w|e']; [done |].
      rewrite andb_true_r. destruct (is_HTTPException e') eqn:He'; [done |].
      by intros [= <-].
  - split.
    + destruct e; simpl; try done; by destruct catch.
    + intros -> e'.
      destruct e; simpl; try done; by intros [= <-].
Qed.

End Probes.

Example probes_on_ws_map :
  (MapAdapter_test ws_map http_adapter (Some "/ws") (Some "GET")).2
  = Ok false
  ∧ (MapAdapter_test ws_map http_adapter (Some "/ws") (Some "POST")).2
    = Ok true
  ∧ (MapAdapter_test downloads_map http_adapter (Some "/downloads") None).2
    = Ok true
  ∧ (MapAdapter_allowed_methods ws_map http_adapter (Some "/ws")).2
    = Ok ["POST"]
  ∧ (MapAdapter_allowed_methods ws_map http_adapter (Some "/other")).2
    = Ok []
  ∧ (MapAdapter_dispatch downloads_map http_adapter
       (λ endpoint args, Ok (endpoint, args)) (Some "/downloads/42") None
       false).2
    = Ok (inl ("downloads/show", {["id" := VStr "42"]}))
  ∧ (MapAdapter_dispatch downloads_map http_adapter
       (λ endpoint args, Ok (endpoint, args)) (Some "/downloads") None
       false).2
    = Ok (inr (RequestRedirect "http://example.com/downloads/"))
  ∧ (MapAdapter_dispatch downloads_map http_adapter
       (λ endpoint args, Ok (endpoint, args)) (Some "/missing") None true).2
    = Ok (inr NotFound).
Proof. repeat split; vm_compute; reflexivity. Qed.

(** ** Binding to an environment *)

Lemma substring_all (s : string) :
  String.substring 0 (String.length s) s = s.
Proof. induction s as [|a s IH]; simpl; [done | by rewrite IH]. Qed.

Lemma substring_app_l (s t : string) :
  String.substring 0 (String.length s) (s +:+ t) = s.
Proof.
  induction s as [|a s IH]; simpl; [by destruct t | by rewrite IH].
Qed.

Lemma substring_app_r (s t : string) :
  String.substring (String.length s) (String.length t) (s +:+ t) = t.
Proof. induction s as [|a s IH]; simpl; [apply substring_all | done]. Qed.

Lemma endswith_app (s suffix : string) :
  PyStr.endswith suffix (s +:+ suffix) = true.
Proof.
  unfold PyStr.endswith. rewrite length_append.
  replace (String.length s + String.length suffix - String.length suffix)
    with (String.length s) by lia.
  rewrite substring_app_r, String.eqb_refl, andb_true_r.
  apply Nat.leb_le. lia.
Qed.

Lemma drop_end_app (s suffix : string) :
  PyStr.drop_end (String.length suffix) (s +:+ suffix) = s.
Proof.
  unfold PyStr.drop_end. rewrite length_append.
  replace (String.length s + String.length suffix - String.length suffix)
    with (String.length s) by lia.
  apply substring_app_l.
Qed.

Lemma lower_app (s t : string) :
  Str.lower (s +:+ t) = Str.lower s +:+ Str.lower t.
Proof.
  unfold Str.lower. induction s as [|a s IH]; simpl; [done | by rewrite IH].
Qed.

Lemma last_n_app {A : Type} (pre l : list A) :
  PyStr.last_n (length l) (pre ++ l) = l
  ∧ PyStr.but_last_n (length l) (pre ++ l) = pre.
Proof.
  unfold PyStr.last_n, PyStr.but_last_n. rewrite length_app.
  replace (length pre + length l - length l) with (length pre) by lia.
  by rewrite drop_app_length, take_app_length.
Qed.

Lemma last_n_split {A : Type} (n : nat) (l : list A) :
  l = PyStr.but_last_n n l ++ PyStr.last_n n l.
Proof. unfold PyStr.last_n, PyStr.but_last_n. by rewrite take_drop. Qed.

(** The labels behind a dot are the labels of the two sides. *)
Lemma split_app_sep (c : ascii) (s t : string) :
  PyStr.split c (s +:+ String c t) = PyStr.split c s ++ PyStr.split c t.
Proof.
  unfold PyStr.split. induction s as [|a s IH]; simpl.
  - rewrite Ascii.eqb_refl. by destruct (PyStr.split_go c t).
  - destruct (PyStr.split_go c (s +:+ String c t)) as [p ps].
    destruct (PyStr.split_go c s) as [q qs].
    destruct (PyStr.split_go c t) as [r rs].
    injection IH as -> ->. by destruct (Ascii.eqb a c).
Qed.

Section BindToEnviron.
Context {R M : Type} `{!RuleLike R} `{!MatcherLike M R} `{!Externals}.
Context `{!WsgiExternals}.

Lemma environ_subdomain_fits (wsgi_server_name server_name : string)
    (pre : list string) :
  PyStr.split "." wsgi_server_name = pre ++ PyStr.split "." server_name →
  environ_subdomain wsgi_server_name server_name
  = ([], PyStr.join "." (filter (λ label, label ≠ "") pre)).
Proof.
  intros Hfit. unfold environ_subdomain. rewrite Hfit.
  destruct (last_n_app pre (PyStr.split "." server_name)) as [-> ->].
  by rewrite bool_decide_false by (by intros ?).
Qed.

Lemma environ_subdomain_misfit (wsgi_server_name server_name : string) :
  (∀ pre,
     PyStr.split "." wsgi_server_name ≠ pre ++ PyStr.split "." server_name) →
  environ_subdomain wsgi_server_name server_name
  = ([ServerNameMismatch wsgi_server_name server_name], "<invalid>").
Proof.
  intros Hmis. unfold environ_subdomain.
  rewrite bool_decide_true; [done |]. intros Hlast.
  pose proof (last_n_split (length (PyStr.split "." server_name))
                (PyStr.split "." wsgi_server_name)) as Hsplit.
  rewrite Hlast in Hsplit. by eapply Hmis.
Qed.

(** X17. Without an explicit subdomain and with host matching off,
    [bind_to_environ] takes the subdomain from the host of the
    environment: when the labels of the server name are the last labels
    of the host, the subdomain is made of the labels in front, joined by
    dots, and no warning is given. Without a server name the host itself
    is the server name and the subdomain is empty. An explicit subdomain
    is passed on as it is. *)
Theorem bind_to_environ_subdomain (m : Map M R) (env : gmap string string)
    (server_name : option string) (scheme0 request_method : string) :
  host_matching m = false →
  env !! "wsgi.url_scheme" = Some scheme0 →
  env !! "REQUEST_METHOD" = Some request_method →
  let wsgi_server_name := Str.lower (wsgi_get_host env) in
  let scheme := environ_scheme env scheme0 in
  let server := environ_server_name wsgi_server_name scheme server_name in
  let bound subdomain :=
    Map_bind m server (_wsgi_decoding_dance <$> env !! "SCRIPT_NAME")
      (Some subdomain) scheme request_method
      (_wsgi_decoding_dance <$> env !! "PATH_INFO")
      (QString <$> (_wsgi_decoding_dance <$> env !! "QUERY_STRING")) in
  (∀ pre,
     PyStr.split "." wsgi_server_name = pre ++ PyStr.split "." server →
     Map_bind_to_environ m env server_name None
     = ([], bound (PyStr.join "." (filter (λ label, label ≠ "") pre))))
  ∧ (∀ sub,
       wsgi_server_name = sub +:+ "." +:+ server →
       Map_bind_to_environ m env server_name None
       = ([], bound (PyStr.join "."
                       (filter (λ label, label ≠ "") (PyStr.split "." sub)))))
  ∧ (server_name = None →
     Map_bind_to_environ m env None None = ([], bound ""))
  ∧ (∀ subdomain,
       Map_bind_to_environ m env server_name (Some subdomain)
       = ([], bound subdomain)).
Proof.
  intros Hhm Hscheme Hmethod wsgi scheme server bound.
  assert (∀ pre,
            PyStr.split "." wsgi = pre ++ PyStr.split "." server →
            Map_bind_to_environ m env server_name None
            = ([], bound (PyStr.join "." (filter (λ label, label ≠ "") pre))))
    as Hfit.
  { intros pre Hpre. unfold Map_bind_to_environ.
    rewrite Hscheme, Hhm, Hmethod. cbn [negb]. fold wsgi scheme server.
    by rewrite (environ_subdomain_fits _ _ _ Hpre). }
  split; [exact Hfit |]. split; [| split].
  - intros sub Hsub. apply Hfit. rewrite Hsub. apply split_app_sep.
  - intros ->. subst server. cbn [environ_server_name] in *.
    apply (Hfit []). done.
  - intros subdomain. unfold Map_bind_to_environ.
    by rewrite Hscheme, Hmethod.
Qed.

(** X18. When the labels of the server name are not the last labels of
    the host, [bind_to_environ] does not fail on that account: it gives
    one warning with the two names and binds with the subdomain
    ["<invalid>"]. *)
Theorem bind_to_environ_invalid_subdomain (m : Map M R)
    (env : gmap string string) (server_name : option string)
    (scheme0 request_method : string) :
  host_matching m = false →
  env !! "wsgi.url_scheme" = Some scheme0 →
  env !! "REQUEST_METHOD" = Some request_method →
  let wsgi_server_name := Str.lower (wsgi_get_host env) in
  let scheme := environ_scheme env scheme0 in
  let server := environ_server_name wsgi_server_name scheme server_name in
  (∀ pre, PyStr.split "." wsgi_server_name ≠ pre ++ PyStr.split "." server) →
  Map_bind_to_environ m env server_name None
  = ([ServerNameMismatch wsgi_server_name server],
     Map_bind m server (_wsgi_decoding_dance <$> env !! "SCRIPT_NAME")
       (Some "<invalid>") scheme request_method
       (_wsgi_decoding_dance <$> env !! "PATH_INFO")
       (QString <$> (_wsgi_decoding_dance <$> env !! "QUERY_STRING"))).
Proof.
  intros Hhm Hscheme Hmethod wsgi scheme server Hmis.
  unfold Map_bind_to_environ.
  rewrite Hscheme, Hhm, Hmethod. cbn [negb]. fold wsgi scheme server.
  by rewrite (environ_subdomain_misfit _ _ Hmis).
Qed.

End BindToEnviron.

Section BindToEnvironScheme.
Context {R M : Type} `{!RuleLike R} `{!MatcherLike M R} `{!Externals}.
Context `{!WsgiExternals}.

(** The scheme and websocket flag of an adapter that [bind] returns. *)
Lemma bind_ok_scheme (m : Map M R) (server_name : string)
    (script_name subdomain : option string)
    (url_scheme default_method : string) (path_info : option string)
    (qa : option qargs) (a : MapAdapter) :
  Map_bind m server_name script_name subdomain url_scheme default_method
    path_info qa = Ok a →
  MapAdapter.url_scheme a = url_scheme
  ∧ MapAdapter.websocket a
    = (String.eqb url_scheme "ws" || String.eqb url_scheme "wss").
Proof.
  unfold Map_bind.
  destruct (if host_matching m then _ else _) as [sub'|]; [| done].
  destruct (Str.partition ":" (Str.lower server_name)) as [[host sep] port].
  destruct (idna_encode host); [| done].
  by intros [= <-].
Qed.

Lemma bind_to_environ_ok_scheme (m : Map M R) (env : gmap string string)
    (server_name subdomain : option string) (scheme0 : string)
    (warnings : list warning) (a : MapAdapter) :
  env !! "wsgi.url_scheme" = Some scheme0 →
  Map_bind_to_environ m env server_name subdomain = (warnings, Ok a) →
  MapAdapter.url_scheme a = environ_scheme env scheme0
  ∧ MapAdapter.websocket a
    = (String.eqb (environ_scheme env scheme0) "ws"
       || String.eqb (environ_scheme env scheme0) "wss").
Proof.
  intros Hscheme. unfold Map_bind_to_environ. rewrite Hscheme.
  destruct (match subdomain with Some _ => _ | None => _ end) as [ws sub].
  destruct (env !! "REQUEST_METHOD"); [| done].
  intros [= _ Hbind]. by apply bind_ok_scheme in Hbind.
Qed.

(** X19. A request asks for an upgrade when some comma-separated part of
    the [Connection] header is, case and surrounding space aside,
    [upgrade], and the [Upgrade] header is, case aside, [websocket].
    The adapter that [bind_to_environ] returns then has the scheme [wss]
    for [https] and [ws] otherwise; when the request does not ask, and so
    whenever one of the two headers is missing, it has the scheme of the
    environment.  It is a websocket adapter exactly when the request asks
    for an upgrade or the scheme of the environment is [ws] or [wss]
    already, and its scheme differs from that of the environment exactly
    when the request asks and that scheme is not the one an upgrade
    gives. *)
Theorem bind_to_environ_websocket (m : Map M R) (env : gmap string string)
    (server_name subdomain : option string) (scheme0 : string)
    (warnings : list warning) (a : MapAdapter) :
  env !! "wsgi.url_scheme" = Some scheme0 →
  Map_bind_to_environ m env server_name subdomain = (warnings, Ok a) →
  let connection := Str.lower (default "" (env !! "HTTP_CONNECTION")) in
  let upgrade := Str.lower (default "" (env !! "HTTP_UPGRADE")) in
  let asked :=
    (∃ v, v ∈ PyStr.split "," connection ∧ PyStr.strip v = "upgrade")
    ∧ upgrade = "websocket" in
  (asked →
   MapAdapter.url_scheme a = (if String.eqb scheme0 "https" then "wss" else "ws")
   ∧ MapAdapter.websocket a = true)
  ∧ (¬ asked → MapAdapter.url_scheme a = scheme0)
  ∧ (env !! "HTTP_CONNECTION" = None ∨ env !! "HTTP_UPGRADE" = None →
     MapAdapter.url_scheme a = scheme0)
  ∧ (MapAdapter.websocket a = true ↔
     asked ∨ scheme0 = "ws" ∨ scheme0 = "wss")
  ∧ (MapAdapter.url_scheme a ≠ scheme0 ↔
     asked ∧ scheme0 ≠ (if String.eqb scheme0 "https" then "wss" else "ws")).
Proof.
  intros Hscheme Hbound connection upgrade asked.
  destruct (bind_to_environ_ok_scheme _ _ _ _ _ _ _ Hscheme Hbound)
    as [-> ->].
  unfold environ_scheme. fold connection upgrade.
  assert (existsb (λ v, String.eqb (PyStr.strip v) "upgrade")
            (PyStr.split "," connection)
          && String.eqb upgrade "websocket" = true ↔ asked) as Hasked.
  { rewrite andb_true_iff, existsb_exists, String.eqb_eq. subst asked.
    split; intros [(v & Hv & Hstrip) Hup]; (split; [| done]); exists v.
    - by rewrite list_elem_of_In, <- String.eqb_eq.
    - by rewrite <- list_elem_of_In, String.eqb_eq. }
  assert (¬ asked →
          (if existsb (λ v, String.eqb (PyStr.strip v) "upgrade")
                (PyStr.split "," connection)
              && String.eqb upgrade "websocket"
           then if String.eqb scheme0 "https" then "wss" else "ws"
           else scheme0) = scheme0) as Hnot.
  { intros Hn. destruct (_ && _); [| done]. exfalso. by apply Hn, Hasked. }
  split; [| split; [| split; [| split]]].
  - intros Hyes. apply Hasked in Hyes. rewrite Hyes.
    by destruct (String.eqb scheme0 "https").
  - exact Hnot.
  - intros Hmissing. apply Hnot. subst asked connection upgrade.
    intros [(v & Hv & Hstrip) Hup].
    destruct Hmissing as [Hc | Hu].
    + rewrite Hc in Hv. apply list_elem_of_In in Hv.
      destruct Hv as [<- | []]. done.
    + by rewrite Hu in Hup.
  - destruct (existsb _ _ && _) eqn:Hb.
    + split; [intros _; left; by apply Hasked |].
      intros _. by destruct (String.eqb scheme0 "https").
    + rewrite orb_true_iff, !String.eqb_eq. split; [by right |].
      intros [Hyes | Hws]; [| done].
      apply Hasked in Hyes. discriminate.
  - destruct (existsb _ _ && _) eqn:Hb.
    + split; [intros Hne; split; [by apply Hasked | by intros Heq] |].
      intros [_ Hne] Heq. by apply Hne.
    + split; [done |]. intros [Hyes _]. apply Hasked in Hyes. discriminate.
Qed.

Lemma environ_server_name_port (wsgi_server_name scheme name port : string) :
  Str.lower port = port →
  (if String.eqb port ":80"
   then String.eqb scheme "http" || String.eqb scheme "ws"
   else String.eqb port ":443"
        && (String.eqb scheme "https" || String.eqb scheme "wss")) = true →
  PyStr.endswith port (Str.lower name) = false →
  environ_server_name wsgi_server_name scheme (Some (name +:+ port))
  = environ_server_name wsgi_server_name scheme (Some name).
Proof.
  intros Hlower Hport Hname. unfold environ_server_name.
  rewrite lower_app, Hlower.
  destruct (String.eqb_spec port ":80") as [->|Hne80].
  - rewrite Hport, Hname, endswith_app. cbn [andb].
    pose proof (drop_end_app (Str.lower name) ":80") as Hdrop.
    cbn [String.length] in Hdrop. rewrite Hdrop.
    apply orb_true_iff in Hport as [->%String.eqb_eq | ->%String.eqb_eq];
      done.
  - apply andb_true_iff in Hport as [->%String.eqb_eq Hs].
    rewrite Hs, Hname, endswith_app. cbn [andb].
    pose proof (drop_end_app (Str.lower name) ":443") as Hdrop.
    cbn [String.length] in Hdrop. rewrite Hdrop.
    apply orb_true_iff in Hs as [->%String.eqb_eq | ->%String.eqb_eq];
      simpl; by rewrite ?andb_false_r.
Qed.

(** X20. The standard port of the scheme at the end of the server name
    given to [bind_to_environ] is ignored: with [:80] under [http] or
    [ws], and with [:443] under [https] or [wss], the result is that for
    the name without the port. *)
Theorem bind_to_environ_standard_port (m : Map M R)
    (env : gmap string string) (name : string) (subdomain : option string)
    (scheme0 : string) :
  env !! "wsgi.url_scheme" = Some scheme0 →
  let scheme := environ_scheme env scheme0 in
  (scheme = "http" ∨ scheme = "ws" →
   PyStr.endswith ":80" (Str.lower name) = false →
   Map_bind_to_environ m env (Some (name +:+ ":80")) subdomain
   = Map_bind_to_environ m env (Some name) subdomain)
  ∧ (scheme = "https" ∨ scheme = "wss" →
     PyStr.endswith ":443" (Str.lower name) = false →
     Map_bind_to_environ m env (Some (name +:+ ":443")) subdomain
     = Map_bind_to_environ m env (Some name) subdomain).
Proof.
  intros Hscheme scheme. split; intros Hs Hname.
  - unfold Map_bind_to_environ. rewrite Hscheme. fold scheme.
    rewrite (environ_server_name_port _ scheme name ":80"); try done.
    by destruct Hs as [-> | ->].
  - unfold Map_bind_to_environ. rewrite Hscheme. fold scheme.
    rewrite (environ_server_name_port _ scheme name ":443"); try done.
    by destruct Hs as [-> | ->].
Qed.

End BindToEnvironScheme.

Lemma bind_to_environ_subdomain_witness :
  Map_bind_to_environ downloads_map staging_environ (Some "Example.com") None
  = ([], Ok (MapAdapter_init "example.com" "" (Some "staging.dev") "http"
               "/downloads/42" "GET" (Some (QString ""))))
  ∧ Map_bind_to_environ downloads_map staging_environ None None
    = ([], Ok (MapAdapter_init "staging.dev.example.com" "" (Some "") "http"
                 "/downloads/42" "GET" (Some (QString "")))).
Proof.
  split.
  - etrans.
    + refine (proj1 (bind_to_environ_subdomain downloads_map staging_environ
                       (Some "Example.com") "http" "GET" _ _ _)
                ["staging"; "dev"] _);
        vm_compute; reflexivity.
    + vm_compute. reflexivity.
  - etrans.
    + refine (proj1 (proj2 (proj2 (bind_to_environ_subdomain downloads_map
                                     staging_environ None "http" "GET"
                                     _ _ _))) _);
        vm_compute; reflexivity.
    + vm_compute. reflexivity.
Defined.

Lemma bind_to_environ_invalid_subdomain_witness :
  Map_bind_to_environ downloads_map staging_environ (Some "other.org") None
  = ([ServerNameMismatch "staging.dev.example.com" "other.org"],
     Ok (MapAdapter_init "other.org" "" (Some "<invalid>") "http"
           "/downloads/42" "GET" (Some (QString "")))).
Proof.
  etrans.
  - refine (bind_to_environ_invalid_subdomain downloads_map staging_environ
              (Some "other.org") "http" "GET" _ _ _ _);
      try (vm_compute; reflexivity).
    intros pre Hpre. apply (f_equal (@List.rev string)) in Hpre.
    rewrite List.rev_app_distr in Hpre. vm_compute in Hpre. discriminate.
  - vm_compute. reflexivity.
Defined.

Lemma bind_to_environ_websocket_witness :
  ∃ a,
    Map_bind_to_environ downloads_map upgrade_environ None None = ([], Ok a)
    ∧ MapAdapter.url_scheme a = "ws"
    ∧ MapAdapter.websocket a = true.
Proof.
  eexists. split; [vm_compute; reflexivity |].
  refine (proj1 (bind_to_environ_websocket downloads_map upgrade_environ None
                   None "http" [] _ _ _) _).
  - vm_compute. reflexivity.
  - vm_compute. reflexivity.
  - split; [| vm_compute; reflexivity].
    exists " upgrade". split; [| vm_compute; reflexivity].
    vm_compute. right. left.
Defined.

Lemma bind_to_environ_standard_port_witness :
  Map_bind_to_environ downloads_map staging_environ (Some "example.com:80")
    None
  = Map_bind_to_environ downloads_map staging_environ (Some "example.com")
      None.
Proof.
  refine (proj1 (bind_to_environ_standard_port downloads_map staging_environ
                   "example.com" None "http" _) _ _).
  - vm_compute. reflexivity.
  - left. vm_compute. reflexivity.
  - vm_compute. reflexivity.
Defined.

(** ** Invariants of the rule lists *)

Section MapInvariants.
Context {R M : Type} `{!RuleLike R} `{!MatcherLike M R} `{!Externals}.

Lemma add_keeps_invariants (m : Map M R) (rules : list R) :
  map_filed m ∧ map_sorted m →
  map_filed (Map_add m rules) ∧ map_sorted (Map_add m rules).
Proof.
  intros [Hfiled _]. split.
  - intros ep l Hl. rewrite add_lookup in Hl.
    assert (Forall (λ r, endpoint r = ep)
              (filter (λ r, endpoint r = ep) rules)) as Hnew.
    { apply Forall_forall. by intros r [Hr _]%list_elem_of_filter. }
    destruct (_rules_by_endpoint m !! ep) as [old|] eqn:Hold.
    + injection Hl as <-. destruct (Hfiled ep old Hold) as [Hne Hall].
      split; [| by apply Forall_app].
      by intros [? _]%app_eq_nil.
    + destruct (filter _ rules) as [|r new]; [done |].
      by injection Hl as <-.
  - intros Hr. by cbn in Hr.
Qed.

Lemma update_keeps_invariants (m : Map M R) :
  map_filed m ∧ map_sorted m →
  map_filed (Map_update m) ∧ map_sorted (Map_update m).
Proof.
  intros [Hfiled Hsorted]. split.
  - intros ep l Hl. pose proof (update_rules_elem m ep) as Hup.
    destruct (_rules_by_endpoint m !! ep) as [added|] eqn:Hadded;
      [| congruence].
    destruct Hup as (rules & Hrules & Hperm).
    rewrite Hl in Hrules. injection Hrules as <-.
    destruct (Hfiled ep added Hadded) as [Hne Hall]. split.
    + intros ->. apply Permutation_nil_l in Hperm. by subst added.
    + by rewrite Hperm.
  - intros _ ep l. rewrite update_rules_by_endpoint.
    destruct (_remap m) eqn:Hr.
    + destruct (_rules_by_endpoint m !! ep) as [added|]; [| done].
      intros [= <-]. apply sort_by_build_compare_key_spec.
    + by apply Hsorted.
Qed.

(** X21. Every map that [__init__], [add] and [update] produce files each
    rule under its own endpoint, has no endpoint with an empty rule list
    and, when it is clean, has every rule list sorted by
    [build_compare_key]: this holds of a new map and is kept by [add], by
    [update], and so by [match] and [build]. *)
Theorem map_invariants (matcher0 : M) (rules : list (list R))
    (default_subdomain : string)
    (strict_slashes redirect_defaults host_matching : bool) :
  let inv (m : Map M R) := map_filed m ∧ map_sorted m in
  inv (Map_init matcher0 rules default_subdomain strict_slashes
         redirect_defaults host_matching)
  ∧ (∀ m more, inv m → inv (Map_add m more))
  ∧ (∀ m, inv m → inv (Map_update m))
  ∧ (∀ m a path_info method return_rule qa ws,
       inv m →
       inv (MapAdapter_match m a path_info method return_rule qa ws).1)
  ∧ (∀ m a endpoint values method force_external append_unknown url_scheme,
       inv m →
       inv (MapAdapter_build m a endpoint values method force_external
              append_unknown url_scheme).1).
Proof.
  intros inv. subst inv. cbv beta.
  split; [| split; [| split; [| split]]].
  - unfold Map_init.
    assert (∀ (m : Map M R) (ls : list (list R)),
              map_filed m ∧ map_sorted m →
              map_filed (foldl Map_add m ls)
              ∧ map_sorted (foldl Map_add m ls)) as Hfold.
    { intros m ls. revert m.
      induction ls as [|l ls IH]; intros m Hm; [done |].
      cbn [foldl]. by apply IH, add_keeps_invariants. }
    apply Hfold. split.
    + intros ep l. cbn. by rewrite lookup_empty.
    + intros Hr. by cbn in Hr.
  - intros m more. apply add_keeps_invariants.
  - apply update_keeps_invariants.
  - intros m a path_info method return_rule qa ws Hm.
    unfold MapAdapter_match. rewrite match_outcome_map.
    by apply update_keeps_invariants.
  - intros m a endpoint values method fe au us Hm.
    rewrite build_map. by apply update_keeps_invariants.
Qed.

End MapInvariants.

(** ** Edge cases of [build] and [bind] *)

Lemma lower_ascii_idemp (a : ascii) :
  Str.lower_ascii (Str.lower_ascii a) = Str.lower_ascii a.
Proof. by destruct a as [[] [] [] [] [] [] [] []]. Qed.

Lemma lower_idemp (s : string) : Str.lower (Str.lower s) = Str.lower s.
Proof.
  unfold Str.lower. induction s as [|a s IH]; simpl; [done |].
  by rewrite lower_ascii_idemp, IH.
Qed.

Section BuildEdges.
Context {R M : Type} `{!RuleLike R} `{!MatcherLike M R} `{!Externals}.
Context `{!RuleArguments R}.

(** X22. An endpoint that no rule was added for: [build] raises
    [BuildError] with the endpoint, the normalised values and the method,
    while [iter_rules] and [is_endpoint_expecting] raise [KeyError]. For
    any other endpoint [iter_rules] returns the rules added for it, in
    some order. *)
Theorem unknown_endpoint (m : Map M R) (a : MapAdapter) (ep : string)
    (values : build_values) (method : option string)
    (force_external append_unknown : bool) (url_scheme : option string)
    (arguments : list string) :
  match _rules_by_endpoint m !! ep with
  | None =>
      (MapAdapter_build m a ep values method force_external append_unknown
         url_scheme).2
      = Raise (BuildError ep (normalize_values values) method)
      ∧ (Map_iter_rules_of m ep).2 = Raise (KeyError ep)
      ∧ (Map_is_endpoint_expecting m ep arguments).2 = Raise (KeyError ep)
  | Some added =>
      ∃ rules, (Map_iter_rules_of m ep).2 = Ok rules ∧ rules ≡ₚ added
  end.
Proof.
  pose proof (update_rules_elem m ep) as Hup.
  unfold Map_iter_rules_of, Map_is_endpoint_expecting, MapAdapter_build.
  destruct (_rules_by_endpoint m !! ep) as [added|].
  - destruct Hup as (rules & -> & Hperm). eauto.
  - unfold MapAdapter__partial_build. rewrite Hup. simpl.
    by destruct method.
Qed.

(** X23. A [MultiDict] that holds one value per key builds like the plain
    dict of those values, provided none of them is [None]. *)
Theorem build_multidict_singletons (m : Map M R) (a : MapAdapter)
    (ep : string) (d : gmap string value) (method : option string)
    (force_external append_unknown : bool) (url_scheme : option string) :
  (∀ k v, d !! k = Some v → is_none v = false) →
  MapAdapter_build m a ep (MultiDict ((λ v, [v]) <$> d)) method
    force_external append_unknown url_scheme
  = MapAdapter_build m a ep (PlainDict d) method force_external
      append_unknown url_scheme.
Proof.
  intros Hd. unfold MapAdapter_build.
  replace (normalize_values (MultiDict ((λ v, [v]) <$> d)))
    with (normalize_values (PlainDict d)); [done |].
  apply map_eq. intros k.
  rewrite normalize_plain_lookup, normalize_multi_lookup, lookup_fmap.
  destruct (d !! k) as [v|] eqn:Hk; simpl; [| done].
  by rewrite (Hd k v Hk).
Qed.

(** X24. Leaving the method out of [build] is asking for the adapter's
    default method first: whenever [build] with the default method
    returns a URL, [build] without a method returns the same URL. *)
Theorem build_default_method_first (m : Map M R) (a : MapAdapter)
    (ep : string) (values : build_values)
    (force_external append_unknown : bool) (url_scheme : option string)
    (url : string) :
  (MapAdapter_build m a ep values (Some (MapAdapter.default_method a))
     force_external append_unknown url_scheme).2 = Ok url →
  (MapAdapter_build m a ep values None force_external append_unknown
     url_scheme).2 = Ok url.
Proof.
  unfold MapAdapter_build, MapAdapter__partial_build.
  destruct (_partial_build_scan _ _ _ (Some _) _ _ _) as [[[dp path] w]|];
    [done |].
  by intros [=].
Qed.

(** X25. [bind] does not tell a server name from its lower-case form. *)
Theorem bind_lowercases (m : Map M R) (server_name : string)
    (script_name subdomain : option string)
    (url_scheme default_method : string) (path_info : option string)
    (qa : option qargs) :
  Map_bind m (Str.lower server_name) script_name subdomain url_scheme
    default_method path_info qa
  = Map_bind m server_name script_name subdomain url_scheme default_method
      path_info qa.
Proof. unfold Map_bind. by rewrite lower_idemp. Qed.

End BuildEdges.

Lemma build_multidict_singletons_witness :
  MapAdapter_build downloads_map http_adapter "downloads/show"
    (MultiDict {["id" := [VStr "42"]]}) None false true None
  = MapAdapter_build downloads_map http_adapter "downloads/show"
      (PlainDict {["id" := VStr "42"]}) None false true None.
Proof.
  etrans; [| apply (build_multidict_singletons downloads_map http_adapter
                      "downloads/show" {["id" := VStr "42"]} None false true
                      None)].
  - vm_compute. reflexivity.
  - intros k v Hkv. destruct (decide (k = "id")) as [->|Hne].
    + rewrite lookup_singleton_eq in Hkv. by injection Hkv as <-.
    + by rewrite lookup_singleton_ne in Hkv.
Defined.

Lemma build_default_method_first_witness :
  (MapAdapter_build downloads_map http_adapter "index" NoValues None false
     true None).2
  = Ok "/".
Proof.
  refine (build_default_method_first downloads_map http_adapter "index"
            NoValues false true None "/" _).
  vm_compute. reflexivity.
Defined.
